(** * Arcade game: the update / collision / spawn core of [js/app.js]

    A shallow embedding of the classes [Level], [Entity], [Enemy], [Player],
    [Entities], [InputHandler] and [Engine], followed by the properties of
    the game loop.

    Modelling conventions.
    - A JavaScript number that holds a pixel coordinate, a velocity or a time
      is a real number ([R]): arithmetic is exact, [Math.min], [Math.max],
      [Math.hypot] and [Math.floor] are [Rmin], [Rmax], the square root of the
      sum of squares and [Int_part].  Integer literals of the level (tile
      sizes and counts), array indices, key codes, the score and the
      millisecond clock [Date.now()] are integers ([Z]).
    - Objects of a class are records; a method that mutates [this] returns
      the updated record.
    - [Math.random()] reads the next draw of an explicit random source.
    - A property read that no class declares goes through the dynamic lookup
      of module [JS] and yields [JS.Undefined], as the language does.
    - Where the outcome turns on the rounding of the numbers (the threshold
      of the collision test), the code is given a second time in module
      [Double], on IEEE 754 binary64 values with correctly rounded
      operations. *)

From Stdlib Require Import Reals Lra Lia ZArith List String Bool SpecFloat.
From Equations Require Import Equations.
Import ListNotations.

Open Scope R_scope.

(** ** The fragment of the language the program relies on *)

Module JS.

(** Values that a dynamic property read can produce in this program. *)
Inductive value : Type :=
| Undefined
| Bool (b : bool)
| Num (r : R)
| Str (s : string)
| Point (px py : R)          (* an object literal {x: .., y: ..} *)
| Method (name : string).    (* a function found on a prototype *)

(** How a call completes: normally with a value, or abruptly with a thrown
    error. *)
Inductive completion (A : Type) : Type :=
| Normal (a : A)
| Throw (error : string).
Arguments Normal {A} a.
Arguments Throw {A} error.

(** ToBoolean: the truthiness used by [if (v)]. *)
Definition ToBoolean (v : value) : bool :=
  match v with
  | Undefined => false
  | Bool b => b
  | Num r => if Req_dec_T r 0 then false else true
  | Str s => negb (String.eqb s EmptyString)
  | Point _ _ => true
  | Method _ => true
  end.

(** ToNumber, with [None] for NaN.  The strings of this program are image
    paths and direction names, none of which reads as a number. *)
Definition ToNumber (v : value) : option R :=
  match v with
  | Undefined => None
  | Bool b => Some (if b then 1 else 0)
  | Num r => Some r
  | Str _ => None
  | Point _ _ => None
  | Method _ => None
  end.

Definition Rltb (a b : R) : bool := if Rlt_dec a b then true else false.
Definition Rleb (a b : R) : bool := if Rle_dec a b then true else false.

(** The relational operators on values: a comparison with NaN on either
    side is false. *)
Definition lt (a b : value) : bool :=
  match ToNumber a, ToNumber b with
  | Some m, Some n => Rltb m n
  | _, _ => false
  end.
Definition le (a b : value) : bool :=
  match ToNumber a, ToNumber b with
  | Some m, Some n => Rleb m n
  | _, _ => false
  end.
Definition gt (a b : value) : bool := lt b a.
Definition ge (a b : value) : bool := le b a.

(** Names that [Object.prototype] defines for every object. *)
Definition Object_prototype : list string :=
  ["constructor"; "toString"; "toLocaleString"; "valueOf"; "hasOwnProperty";
   "isPrototypeOf"; "propertyIsEnumerable"; "__proto__"; "__defineGetter__";
   "__defineSetter__"; "__lookupGetter__"; "__lookupSetter__"]%string.

(** Lookup in a table of own properties, then in a list of inherited
    method names; anything else reads as [undefined]. *)
Fixpoint own (props : list (string * value)) (key : string) : option value :=
  match props with
  | [] => None
  | (k, v) :: rest => if String.eqb k key then Some v else own rest key
  end.

Definition get (props : list (string * value)) (proto : list string)
           (key : string) : value :=
  match own props key with
  | Some v => v
  | None => if existsb (String.eqb key) proto then Method key else Undefined
  end.

(** A property read on a boolean primitive: the primitive has no own
    property, the lookup goes to [Boolean.prototype]. *)
Definition Boolean_get (b : bool) (key : string) : value :=
  get [] Object_prototype key.

(** [Math.hypot(a, b)]. *)
Definition hypot (a b : R) : R := sqrt (a * a + b * b).

(** [Math.floor], as an integer. *)
Definition floor (r : R) : Z := Int_part r.

(** The random source: the sequence of draws [Math.random()] will return.
    A call takes the first and leaves the rest. *)
Definition rng : Type := nat -> R.
Definition random (g : rng) : R * rng := (g O, fun n => g (S n)).

(** [Math.random()] returns a number in [0, 1). *)
Definition unit_draws (g : rng) : Prop := forall n, 0 <= g n < 1.

(** [for (let i = 0; i < n; i++) body], for a body that does not read [i]. *)
Fixpoint repeat_loop {A : Type} (n : nat) (body : A -> A) (acc : A) : A :=
  match n with
  | O => acc
  | S k => repeat_loop k body (body acc)
  end.

(** Truncation toward zero, and the remainder operator [a % b] for a
    divisor other than zero: the result takes the sign of the dividend. *)
Definition trunc (r : R) : Z :=
  if Rle_dec 0 r then Int_part r else (- Int_part (- r))%Z.
Definition rem (a b : R) : R := a - b * IZR (trunc (a / b)).

End JS.

(** A position, velocity or displacement: [{x: .., y: ..}]. *)
Module Vec.
Record t : Type := mk { x : R; y : R }.
End Vec.

(** ** class Level *)

Module Level.

Definition water : string := "images/water-block.png".
Definition stone : string := "images/stone-block.png".
Definition grass : string := "images/grass-block.png".

Record t : Type := mk {
  tileWidth : Z;
  tileHeight : Z;
  widthTiles : Z;
  heightTiles : Z;
  start : Vec.t;
  tiles : list string
}.

Definition set_tiles (ts : list string) (l : t) : t :=
  mk (tileWidth l) (tileHeight l) (widthTiles l) (heightTiles l) (start l) ts.

Definition push (s : string) (l : t) : t := set_tiles (tiles l ++ [s]) l.

Definition generateTiles (l : t) : t :=
  let columns := Z.to_nat (widthTiles l) in
  let l1 := JS.repeat_loop columns (push water) l in
  let l2 := JS.repeat_loop 3 (JS.repeat_loop columns (push stone)) l1 in
  JS.repeat_loop 2 (JS.repeat_loop columns (push grass)) l2.

Definition constructor : t :=
  let tileWidth := 101%Z in
  let tileHeight := 83%Z in
  generateTiles
    (mk tileWidth tileHeight 5 6
        (Vec.mk (IZR (tileWidth * 2)) (IZR (tileHeight * 5))) []).

(** [this.tiles[i]]: an index that is not an element of the array reads as
    [undefined]; no index throws. *)
Definition index (ts : list string) (i : Z) : JS.value :=
  if (i <? 0)%Z then JS.Undefined
  else match nth_error ts (Z.to_nat i) with
       | Some s => JS.Str s
       | None => JS.Undefined
       end.

Definition getTile (l : t) (row col : Z) : JS.completion JS.value :=
  JS.Normal (index (tiles l) (row * widthTiles l + col)).

Definition widthPixels (l : t) : Z := (tileWidth l * widthTiles l)%Z.
Definition heightPixels (l : t) : Z := (tileHeight l * heightTiles l)%Z.

(** The grid of the specification: [0, heightTiles) x [0, widthTiles). *)
Definition in_grid (l : t) (row col : Z) : Prop :=
  (0 <= row < heightTiles l /\ 0 <= col < widthTiles l)%Z.

End Level.

(** ** class Entity *)

Module Entity.

(** The base class acts on [this.pos]; both methods are given as the new
    value of that position. *)
Definition move (velocity : Vec.t) (dt : R) (pos : Vec.t) : Vec.t :=
  Vec.mk (Vec.x pos + Vec.x velocity * dt) (Vec.y pos + Vec.y velocity * dt).

Definition shiftPosition (displacement : Vec.t) (pos : Vec.t) : Vec.t :=
  Vec.mk (Vec.x pos + Vec.x displacement) (Vec.y pos + Vec.y displacement).

(** Method names an instance inherits from [Entity.prototype]. *)
Definition prototype : list string :=
  ["move"; "shiftPosition"; "render"; "update"]%string.

End Entity.

(** ** class Enemy extends Entity *)

Module Enemy.

Record t : Type := mk {
  pos : Vec.t;
  sprite : string;
  movement : Vec.t
}.

Definition constructor (position movement : Vec.t) : t :=
  mk position "images/enemy-bug.png" movement.

Definition update (dt : R) (e : t) : t :=
  mk (Entity.move (movement e) dt (pos e)) (sprite e) (movement e).

Definition point (v : Vec.t) : JS.value := JS.Point (Vec.x v) (Vec.y v).

(** A dynamic read [enemy.key]: the own properties are the three the
    constructors assign, the rest comes from the prototype chain. *)
Definition get (e : t) (key : string) : JS.value :=
  JS.get [("pos", point (pos e)); ("sprite", JS.Str (sprite e));
          ("movement", point (movement e))]%string
         (Entity.prototype ++ JS.Object_prototype) key.

End Enemy.

(** ** class Player extends Entity *)

Module Player.

Record t : Type := mk {
  pos : Vec.t;
  sprite : string;
  level : Level.t
}.

Definition constructor (position : Vec.t) (level : Level.t) : t :=
  mk position "images/char-boy.png" level.

Definition set_pos (p : Vec.t) (this : t) : t := mk p (sprite this) (level this).
Definition set_x (v : R) (this : t) : t :=
  set_pos (Vec.mk v (Vec.y (pos this))) this.
Definition set_y (v : R) (this : t) : t :=
  set_pos (Vec.mk (Vec.x (pos this)) v) this.

Definition shiftPosition (displacement : Vec.t) (this : t) : t :=
  set_pos (Entity.shiftPosition displacement (pos this)) this.

Definition update (input : string) (this : t) : t :=
  let this :=
    if String.eqb input "left" then
      shiftPosition (Vec.mk (IZR (- Level.tileWidth (level this))) 0) this
    else if String.eqb input "right" then
      shiftPosition (Vec.mk (IZR (Level.tileWidth (level this))) 0) this
    else if String.eqb input "up" then
      shiftPosition (Vec.mk 0 (IZR (- Level.tileHeight (level this)))) this
    else if String.eqb input "down" then
      shiftPosition (Vec.mk 0 (IZR (Level.tileHeight (level this)))) this
    else this in
  (* Ensure player does not move off the edge of the level *)
  let this := set_x (Rmax 0 (Vec.x (pos this))) this in
  let this := set_y (Rmax 0 (Vec.y (pos this))) this in
  let this :=
    set_x (Rmin (Vec.x (pos this))
                (IZR (Level.widthPixels (level this) - Level.tileWidth (level this))))
          this in
  set_y (Rmin (Vec.y (pos this))
              (IZR (Level.heightPixels (level this) - Level.tileHeight (level this))))
        this.

End Player.

(** ** class Entities *)

Module Entities.

Record t : Type := mk {
  enemies : list Enemy.t;
  player : Player.t;
  level : Level.t
}.

(** The player is built on [level.start] itself: its position and the start
    of the level are one object.  No method reads [level.start] again, so the
    position is kept in the player alone. *)
Definition constructor (level : Level.t) : t :=
  mk [] (Player.constructor (Level.start level) level) level.

Definition set_enemies (es : list Enemy.t) (this : t) : t :=
  mk es (player this) (level this).
Definition set_player (p : Player.t) (this : t) : t :=
  mk (enemies this) p (level this).

Definition checkEnemyCreation (dt : R) (g : JS.rng) (this : t) : t * JS.rng :=
  let ENEMY_CREATION_CHANCE := 0.5 in
  let l := level this in
  let (trial, g1) := JS.random g in
  if JS.Rltb trial (dt * ENEMY_CREATION_CHANCE) then
    let (r_row, g2) := JS.random g1 in
    let row := JS.floor (r_row * 3 + 1) in
    let (r_side, g3) := JS.random g2 in
    if JS.Rltb r_side 0.5 then
      (set_enemies
         (enemies this ++
          [Enemy.constructor
             (Vec.mk (IZR (- Level.tileWidth l)) (IZR (row * Level.tileHeight l)))
             (Vec.mk 100 0)]) this, g3)
    else
      (set_enemies
         (enemies this ++
          [Enemy.constructor
             (Vec.mk (IZR (Level.widthPixels l + Level.tileWidth l))
                     (IZR (row * Level.tileHeight l)))
             (Vec.mk (-100) 0)]) this, g3)
  else (this, g1).

(** The body of the scan of [checkEnemyRemoval] for one enemy: the value
    of [removeEnemy] after the two tests.  The position is read as
    [enemyToCheck.x], the velocity as [enemyToCheck.movement.x]. *)
Definition removeEnemy (l : Level.t) (enemyToCheck : Enemy.t) : bool :=
  let removeEnemy := false in
  let removeEnemy :=
    if JS.le (Enemy.get enemyToCheck "x") (JS.Num (IZR (- Level.tileWidth l)))
       && JS.lt (JS.Num (Vec.x (Enemy.movement enemyToCheck))) (JS.Num 0)
    then true else removeEnemy in
  let removeEnemy :=
    if JS.ge (Enemy.get enemyToCheck "x") (JS.Num (IZR (Level.widthPixels l)))
       && JS.gt (JS.Num (Vec.x (Enemy.movement enemyToCheck))) (JS.Num 0)
    then true else removeEnemy in
  removeEnemy.

(** The inner [for] loop from [enemyIndex] on: the index of the first
    enemy to remove, [None] for [toBeRemoved = -1]. *)
Fixpoint scan (l : Level.t) (es : list Enemy.t) (enemyIndex : nat) : option nat :=
  match es with
  | [] => None
  | enemyToCheck :: rest =>
      if removeEnemy l enemyToCheck then Some enemyIndex
      else scan l rest (S enemyIndex)
  end.

(** Keeps the equation of a scrutinee for the termination argument. *)
Definition inspect {A : Type} (a : A) : {b : A | a = b} := exist _ a eq_refl.

(** [array.splice(i, 1)]. *)
Definition splice1 {A : Type} (i : nat) (xs : list A) : list A :=
  firstn i xs ++ skipn (S i) xs.

(** The [do ... while (toBeRemoved >= 0)] loop on the enemy array: each
    pass but the last removes one element, so the loop ends. *)
Equations? sweep (l : Level.t) (es : list Enemy.t) : list Enemy.t
  by wf (List.length es) lt :=
  sweep l es with inspect (scan l es 0) := {
    | exist _ (Some toBeRemoved) found => sweep l (splice1 toBeRemoved es)
    | exist _ None _ => es
  }.
Proof.
  assert (bound : forall xs k i,
             scan l xs k = Some i -> (k <= i < k + List.length xs)%nat).
  { induction xs as [|e xs IH]; intros k i; cbn [scan List.length]; [discriminate|].
    destruct (removeEnemy l e).
    - intros H; injection H as H; lia.
    - intros H; apply IH in H; lia. }
  apply bound in found.
  unfold splice1.
  rewrite length_app, length_firstn, length_skipn; lia.
Qed.

Definition checkEnemyRemoval (this : t) : t :=
  set_enemies (sweep (level this) (enemies this)) this.

(** The [for ... of] loop of [checkCollisions] over the enemy array. *)
Fixpoint collides (l : Level.t) (playerPos : Vec.t) (es : list Enemy.t) : bool :=
  match es with
  | [] => false
  | enemy :: rest =>
      let distance :=
        JS.hypot (Vec.x playerPos - Vec.x (Enemy.pos enemy))
                 (Vec.y playerPos - Vec.y (Enemy.pos enemy)) in
      if JS.Rltb distance (IZR (Level.tileWidth l) * 0.6) then true
      else collides l playerPos rest
  end.

Definition checkCollisions (this : t) : bool :=
  collides (level this) (Player.pos (player this)) (enemies this).

(** [update] returns its boolean together with the updated collection and
    the rest of the random source. *)
Definition update (dt : R) (g : JS.rng) (this : t) : bool * t * JS.rng :=
  let (created, g1) := checkEnemyCreation dt g this in
  let swept := checkEnemyRemoval created in
  let moved := set_enemies (map (Enemy.update dt) (enemies swept)) swept in
  let collisionOccurred := checkCollisions moved in
  (negb collisionOccurred, moved, g1).

End Entities.

(** ** The collision test on binary64 numbers *)

Module Double.

(** A JavaScript number: a binary64 value (53 bits of precision, exponents
    up to 1024), with the operations rounding to nearest, ties to even. *)
Definition t : Type := spec_float.

Definition sub : t -> t -> t := SFsub 53 1024.
Definition mul : t -> t -> t := SFmul 53 1024.
Definition div : t -> t -> t := SFdiv 53 1024.
Definition sqrt : t -> t := SFsqrt 53 1024.
Definition ltb : t -> t -> bool := SFltb.
Definition leb : t -> t -> bool := SFleb.

(** The number an integer literal or an integer field denotes. *)
Definition of_Z (z : Z) : t := binary_normalize 53 1024 z 0 false.

Definition zero : t := S754_zero false.

(** The literal [0.6]: the binary64 value nearest to six tenths. *)
Definition six_tenths : t := div (of_Z 6) (of_Z 10).


Module Vec.
Record t : Type := mk { x : Double.t; y : Double.t }.
End Vec.

Module Enemy.
Record t : Type := mk { pos : Vec.t; sprite : string; movement : Vec.t }.
End Enemy.

Module Player.
Record t : Type := mk { pos : Vec.t; sprite : string; level : Level.t }.
End Player.

Module Entities.

Record t : Type := mk {
  enemies : list Enemy.t;
  player : Player.t;
  level : Level.t
}.

Section Hypot.

(** [Math.hypot] is approximated by the implementation: the function that a
    given engine computes is a parameter of the collision test. *)
Variable hypot : Double.t -> Double.t -> Double.t.

(** The [for ... of] loop of [checkCollisions] over the enemy array. *)
Fixpoint collides (l : Level.t) (playerPos : Vec.t) (es : list Enemy.t) : bool :=
  match es with
  | [] => false
  | enemy :: rest =>
      let distance :=
        hypot (sub (Vec.x playerPos) (Vec.x (Enemy.pos enemy)))
              (sub (Vec.y playerPos) (Vec.y (Enemy.pos enemy))) in
      if ltb distance (mul (of_Z (Level.tileWidth l)) six_tenths) then true
      else collides l playerPos rest
  end.

Definition checkCollisions (this : t) : bool :=
  collides (level this) (Player.pos (player this)) (enemies this).

End Hypot.

End Entities.

End Double.

(** ** class InputHandler *)

Module InputHandler.

(** The handler keeps a reference to the engine's [Entities] object (passed
    to the listener below) and receives the flag [inputsEnabled] from
    [Engine.update]; the constructor does not create the flag, so it reads
    as [undefined] until the engine writes it. *)
Record t : Type := mk { inputsEnabled : JS.value }.

Definition constructor : t := mk JS.Undefined.

Definition allowedKeys : list (Z * string) :=
  [(37%Z, "left"); (38%Z, "up"); (39%Z, "right"); (40%Z, "down")]%string.

(** [allowedKeys[keyCode]]. *)
Fixpoint lookup (keys : list (Z * string)) (keyCode : Z) : JS.value :=
  match keys with
  | [] => JS.Undefined
  | (code, name) :: rest =>
      if (code =? keyCode)%Z then JS.Str name else lookup rest keyCode
  end.

(** The ['keyup'] listener registered by [initializeEventListeners], for the
    handler [that] and an event with the given key code. *)
Definition keyup (that : t) (keyCode : Z) (entities : Entities.t) : Entities.t :=
  let keyValue := lookup allowedKeys keyCode in
  if JS.ToBoolean keyValue then
    match keyValue with
    | JS.Str input =>
        Entities.set_player
          (Player.update input (Entities.player entities)) entities
    | _ => entities
    end
  else entities.

End InputHandler.

(** ** class Engine *)

Module Engine.

(** [this.states]: the frozen enumeration of game states. *)
Inductive states : Type := initialising | running | levelWin | gameOver.

Definition states_eqb (a b : states) : bool :=
  match a, b with
  | initialising, initialising | running, running
  | levelWin, levelWin | gameOver, gameOver => true
  | _, _ => false
  end.

Record t : Type := mk {
  state : states;
  score : Z;
  level : Level.t;
  entities : Entities.t;
  inputHandler : InputHandler.t;
  lastTime : Z;
  timeSinceReset : R;
  buttonHighlight : bool
}.

Definition set_state (s : states) (this : t) : t :=
  mk s (score this) (level this) (entities this) (inputHandler this)
     (lastTime this) (timeSinceReset this) (buttonHighlight this).
Definition set_score (n : Z) (this : t) : t :=
  mk (state this) n (level this) (entities this) (inputHandler this)
     (lastTime this) (timeSinceReset this) (buttonHighlight this).
Definition set_entities (e : Entities.t) (this : t) : t :=
  mk (state this) (score this) (level this) e (inputHandler this)
     (lastTime this) (timeSinceReset this) (buttonHighlight this).
Definition set_inputsEnabled (v : JS.value) (this : t) : t :=
  mk (state this) (score this) (level this) (entities this) (InputHandler.mk v)
     (lastTime this) (timeSinceReset this) (buttonHighlight this).
Definition set_lastTime (now : Z) (this : t) : t :=
  mk (state this) (score this) (level this) (entities this) (inputHandler this)
     now (timeSinceReset this) (buttonHighlight this).
Definition set_timeSinceReset (s : R) (this : t) : t :=
  mk (state this) (score this) (level this) (entities this) (inputHandler this)
     (lastTime this) s (buttonHighlight this).

(** [reset(fullReset)].  The class [Levels] is not part of the sources at
    hand: the level its factory hands out ([levels.reset()] or
    [levels.next()]) is the parameter [fresh]. *)
Definition reset (fullReset : bool) (fresh : Level.t) (this : t) : t :=
  mk initialising
     (if fullReset then 0%Z else score this)
     fresh
     (Entities.constructor fresh)
     InputHandler.constructor
     0%Z 0 false.

(** [new Engine()]: [reset(true)] on an object that has no field yet. *)
Definition constructor (fresh : Level.t) : t :=
  mk initialising 0%Z fresh (Entities.constructor fresh)
     InputHandler.constructor 0%Z 0 false.

(** [initialiseLevel()], with [now] the value of [Date.now()]. *)
Definition initialiseLevel (now : Z) (this : t) : t :=
  set_lastTime now (set_state running this).

(** [updateTimer()]: the seconds since the previous frame. *)
Definition updateTimer (now : Z) (this : t) : R * t :=
  let dt := IZR (now - lastTime this) / 1000 in
  (dt, set_lastTime now this).

Definition playerInputAllowed (this : t) : bool :=
  JS.Rltb 2 (timeSinceReset this).

Definition update (dt : R) (g : JS.rng) (this : t) : t * JS.rng :=
  let this := set_timeSinceReset (timeSinceReset this + dt) this in
  if negb (states_eqb (state this) running) then (this, g)
  else
    let this :=
      if playerInputAllowed this then set_inputsEnabled (JS.Bool true) this
      else this in
    let '(entityMessages, updated, g1) := Entities.update dt g (entities this) in
    let this := set_entities updated this in
    if JS.ToBoolean (JS.Boolean_get entityMessages "hitEnemy") then
      (set_state gameOver (set_inputsEnabled (JS.Bool false) this), g1)
    else if JS.ToBoolean (JS.Boolean_get entityMessages "levelWon") then
      (set_state levelWin (set_inputsEnabled (JS.Bool false) this), g1)
    else if JS.ToBoolean (JS.Boolean_get entityMessages "pickedUpGem") then
      (set_score (score this + 1)%Z this, g1)
    else (this, g1).

(** The time step [runLoopIteration] computes and hands to [update]. *)
Definition frame_dt (now : Z) (this : t) : R :=
  Rmin 0.1 (fst (updateTimer now this)).

(** One iteration of the loop up to the call of [render], which only draws. *)
Definition runLoopIteration (now : Z) (g : JS.rng) (this : t) : t * JS.rng :=
  let (elapsed, this) := updateTimer now this in
  let dt := Rmin 0.1 elapsed in
  update dt g this.

(** A ['keyup'] event reaching the listener of the current input handler. *)
Definition keyup (keyCode : Z) (this : t) : t :=
  set_entities
    (InputHandler.keyup (inputHandler this) keyCode (entities this)) this.

(** [playerVisible()]: while input is disabled in a running game the player
    blinks. *)
Definition playerVisible (this : t) : bool :=
  let blinkState := (JS.floor (JS.rem (timeSinceReset this * 4) 2) =? 0)%Z in
  negb (states_eqb (state this) running) || blinkState || playerInputAllowed this.

(** The positioning constants of [initialiseConstants] and [setupCanvas]. *)
Definition BUTTON_HEIGHT : R := 50.
Definition BUTTON_WIDTH : R := 200.
Definition MESSAGE_PADDING : R := 30.
Definition MESSAGE_BORDER : R := 10.
Definition INNER_MESSAGE_PADDING : R := MESSAGE_PADDING + MESSAGE_BORDER.
Definition INNER_MESSAGE_HEIGHT : R := 150.
Definition BUTTON_Y_OFFSET : R := 85.
Definition CANVAS_Y_OFFSET : R := 55.

(** [this.canvas.width]: [setupCanvas] sets it to the width of the level at
    every reset, the only place where the level changes. *)
Definition canvas_width (this : t) : R := IZR (Level.widthPixels (level this)).

Definition buttonLeft (this : t) : R := (canvas_width this - BUTTON_WIDTH) / 2.
Definition buttonTop (this : t) : R :=
  INNER_MESSAGE_PADDING + CANVAS_Y_OFFSET + BUTTON_Y_OFFSET.
Definition buttonRight (this : t) : R := buttonLeft this + BUTTON_WIDTH.
Definition buttonBottom (this : t) : R := buttonTop this + BUTTON_HEIGHT.

(** The test both mouse handlers apply to [event.offsetX], [event.offsetY]. *)
Definition over_button (x y : R) (this : t) : bool :=
  JS.Rleb (buttonLeft this) x && JS.Rltb x (buttonRight this)
  && JS.Rleb (buttonTop this) y && JS.Rltb y (buttonBottom this).

Definition set_buttonHighlight (b : bool) (this : t) : t :=
  mk (state this) (score this) (level this) (entities this) (inputHandler this)
     (lastTime this) (timeSinceReset this) b.

Definition handleMouseMove (x y : R) (this : t) : t :=
  if over_button x y this then set_buttonHighlight true this
  else set_buttonHighlight false this.

(** [run()]: [initialiseLevel()] at clock value [now], then the first
    iteration of the loop at clock value [later]. *)
Definition run (now later : Z) (g : JS.rng) (this : t) : t * JS.rng :=
  runLoopIteration later g (initialiseLevel now this).

(** [handleClick(event)]: on the button of the message box, a click restarts
    after a game over and continues after a won level.  [fresh] is the level
    the factory hands out, [now] and [later] are the two clock values [run()]
    reads.  The canvas and the resource loader that [reset] also sets up are
    outside the sources at hand and have no part in the fields kept here. *)
Definition handleClick (x y : R) (fresh : Level.t) (now later : Z)
           (g : JS.rng) (this : t) : t * JS.rng :=
  if over_button x y this then
    if states_eqb (state this) gameOver then run now later g (reset true fresh this)
    else if states_eqb (state this) levelWin then
      run now later g (reset false fresh this)
    else (this, g)
  else (this, g).

End Engine.

(** ** Vocabulary of the properties *)

(** The tile that the layout puts in a row. *)
Definition tile_of_row (row : Z) : string :=
  if (row =? 0)%Z then Level.water
  else if (row <=? 3)%Z then Level.stone
  else Level.grass.

(** A position inside the rectangle the player may occupy. *)
Definition on_level (l : Level.t) (p : Vec.t) : Prop :=
  0 <= Vec.x p <= IZR (Level.widthPixels l - Level.tileWidth l) /\
  0 <= Vec.y p <= IZR (Level.heightPixels l - Level.tileHeight l).

(** The nearest position inside that rectangle. *)
Definition clamp (l : Level.t) (p : Vec.t) : Vec.t :=
  Vec.mk
    (Rmin (Rmax 0 (Vec.x p)) (IZR (Level.widthPixels l - Level.tileWidth l)))
    (Rmin (Rmax 0 (Vec.y p)) (IZR (Level.heightPixels l - Level.tileHeight l))).

(** The player after a sequence of inputs, each handled by [Player.update]. *)
Definition play (inputs : list string) (this : Player.t) : Player.t :=
  fold_left (fun p input => Player.update input p) inputs this.

(** Euclidean distance between two positions. *)
Definition distance (a b : Vec.t) : R :=
  sqrt ((Vec.x a - Vec.x b) ^ 2 + (Vec.y a - Vec.y b) ^ 2).

(** ** Sample configurations *)

(** The player two rows up from the start, and one enemy on the same spot. *)
Definition touching : Entities.t :=
  Entities.mk
    [Enemy.constructor (Vec.mk 202 249) (Vec.mk 100 0)]
    (Player.constructor (Vec.mk 202 249) Level.constructor)
    Level.constructor.

(** The player at the start, and one enemy that has just entered row 1 from
    the left. *)
Definition apart : Entities.t :=
  Entities.mk
    [Enemy.constructor (Vec.mk (-101) 83) (Vec.mk 100 0)]
    (Player.constructor (Vec.mk 202 415) Level.constructor)
    Level.constructor.

(** A random source whose draws are all one half: no enemy is created in a
    frame of at most a tenth of a second. *)
Definition halves : JS.rng := fun _ => 1 / 2.

(** A random source whose first draw is small enough to create an enemy in
    a frame of a tenth of a second. *)
Definition spawning : JS.rng :=
  fun n => match n with O => 1 / 100 | _ => 1 / 2 end.

(** The engine once the resources are loaded: [new Engine()] followed by
    [initialiseLevel()] at clock value [now]. *)
Definition started (now : Z) : Engine.t :=
  Engine.initialiseLevel now (Engine.constructor Level.constructor).

(** A running engine whose player stands two rows up from the start while
    an enemy of that row, moving right, is ten pixels to the left. *)
Definition approaching : Engine.t :=
  let climbed := Engine.keyup 38 (Engine.keyup 38 (started 0)) in
  Engine.set_entities
    (Entities.set_enemies
       [Enemy.constructor (Vec.mk 192 249) (Vec.mk 100 0)]
       (Engine.entities climbed))
    climbed.

(** An enemy that moves left and is past the left edge by a full tile. *)
Definition gone_left : Enemy.t :=
  Enemy.constructor (Vec.mk (-202) 83) (Vec.mk (-100) 0).

(** An enemy is off-screen in the direction of its own travel. *)
Definition off_screen (l : Level.t) (e : Enemy.t) : Prop :=
  (Vec.x (Enemy.pos e) <= IZR (- Level.tileWidth l)
   /\ Vec.x (Enemy.movement e) < 0) \/
  (Vec.x (Enemy.pos e) >= IZR (Level.widthPixels l)
   /\ Vec.x (Enemy.movement e) > 0).

(** ** Sample configurations on binary64 numbers *)


Definition bug (px py : Double.t) : Double.Enemy.t :=
  Double.Enemy.mk (Double.Vec.mk px py) "images/enemy-bug.png"
                  (Double.Vec.mk (Double.of_Z 100) Double.zero).

Definition boy (px py : Double.t) : Double.Player.t :=
  Double.Player.mk (Double.Vec.mk px py) "images/char-boy.png" Level.constructor.



(** The largest binary64 value below 60.6, written 60.599999999999994. *)
Definition just_below_threshold : Double.t :=
  S754_finite false 8528691794332876 (-47).

(** The player in column 0 of row 1 and an enemy of that row at
    [x = -60.599999999999994]. *)
Definition grazing_doubles : Double.Entities.t :=
  Double.Entities.mk
    [bug (SFopp just_below_threshold) (Double.of_Z 83)]
    (boy Double.zero (Double.of_Z 83)) Level.constructor.

(** How close to a third of the draws the boundary between two rows is
    guaranteed to lie. *)
Definition boundary_margin : R := / 1000000000000000.

(** ** Events *)

(** What reaches the engine from outside: an animation frame at a clock
    value with the draws of that frame, a key released, the mouse moved, a
    click (with what a restart would need). *)
Inductive event : Type :=
| Frame (now : Z) (g : JS.rng)
| KeyUp (keyCode : Z)
| MouseMove (x y : R)
| Click (x y : R) (fresh : Level.t) (now later : Z) (g : JS.rng).

Definition handle (ev : event) (this : Engine.t) : Engine.t :=
  match ev with
  | Frame now g => fst (Engine.runLoopIteration now g this)
  | KeyUp keyCode => Engine.keyup keyCode this
  | MouseMove x y => Engine.handleMouseMove x y this
  | Click x y fresh now later g =>
      fst (Engine.handleClick x y fresh now later g this)
  end.

Definition run_events (evs : list event) (this : Engine.t) : Engine.t :=
  fold_left (fun e ev => handle ev e) evs this.

(** Every frame of the sequence draws from [0, 1). *)
Fixpoint unit_frames (evs : list event) : Prop :=
  match evs with
  | [] => True
  | Frame _ g :: rest => JS.unit_draws g /\ unit_frames rest
  | Click _ _ _ _ _ g :: rest => JS.unit_draws g /\ unit_frames rest
  | _ :: rest => unit_frames rest
  end.

(** The clock never reads less than at the previous frame. *)
Fixpoint clock_monotone (last : Z) (evs : list event) : Prop :=
  match evs with
  | [] => True
  | Frame now _ :: rest => (last <= now)%Z /\ clock_monotone now rest
  | _ :: rest => clock_monotone last rest
  end.

Fixpoint count_frames (evs : list event) : nat :=
  match evs with
  | [] => O
  | Frame _ _ :: rest => S (count_frames rest)
  | _ :: rest => count_frames rest
  end.

(** An enemy as the spawner makes them: on one of the rows 1 to 3 and moving
    horizontally at 100 pixels per second. *)
Definition in_lane (l : Level.t) (e : Enemy.t) : Prop :=
  (exists row, (1 <= row <= 3)%Z /\
               Vec.y (Enemy.pos e) = IZR (row * Level.tileHeight l)) /\
  Vec.y (Enemy.movement e) = 0 /\
  (Vec.x (Enemy.movement e) = 100 \/ Vec.x (Enemy.movement e) = -100).

(** A position on a tile of the grid. *)
Definition on_tile (l : Level.t) (p : Vec.t) : Prop :=
  exists col row,
    (0 <= col < Level.widthTiles l)%Z /\ (0 <= row < Level.heightTiles l)%Z /\
    Vec.x p = IZR (col * Level.tileWidth l) /\
    Vec.y p = IZR (row * Level.tileHeight l).

(** The column and the row of a tile after an input. *)
Definition next_tile (input : string) (col row : Z) : Z * Z :=
  if String.eqb input "left" then (Z.max 0 (col - 1), row)
  else if String.eqb input "right" then (Z.min 4 (col + 1), row)
  else if String.eqb input "up" then (col, Z.max 0 (row - 1))
  else if String.eqb input "down" then (col, Z.min 5 (row + 1))
  else (col, row).

(** The tile reached from a tile by a sequence of inputs. *)
Definition walk (inputs : list string) (tile : Z * Z) : Z * Z :=
  fold_left (fun t input => next_tile input (fst t) (snd t)) inputs tile.

(** The enemy [checkEnemyCreation] builds from the second and third draws of
    a frame. *)
Definition spawned (l : Level.t) (g : JS.rng) : Enemy.t :=
  let row := JS.floor (g 1%nat * 3 + 1) in
  if JS.Rltb (g 2%nat) 0.5 then
    Enemy.constructor
      (Vec.mk (IZR (- Level.tileWidth l)) (IZR (row * Level.tileHeight l)))
      (Vec.mk 100 0)
  else
    Enemy.constructor
      (Vec.mk (IZR (Level.widthPixels l + Level.tileWidth l))
              (IZR (row * Level.tileHeight l)))
      (Vec.mk (-100) 0).

(** The draws left after the first [k]. *)
Definition after_draws (k : nat) (g : JS.rng) : JS.rng := fun n => g (k + n)%nat.

(** What holds of the engine while a game runs on the constructed level:
    nothing scored, the player on a tile, every enemy in a lane. *)
Definition healthy (this : Engine.t) : Prop :=
  Engine.state this = Engine.running /\
  Engine.score this = 0%Z /\
  Engine.level this = Level.constructor /\
  Entities.level (Engine.entities this) = Level.constructor /\
  Player.level (Entities.player (Engine.entities this)) = Level.constructor /\
  on_tile Level.constructor (Player.pos (Entities.player (Engine.entities this))) /\
  (forall enemy, In enemy (Entities.enemies (Engine.entities this)) ->
                 in_lane Level.constructor enemy).

(** A short session: a key, a frame that creates an enemy, a mouse move, a
    click and a quiet frame. *)
Definition session : list event :=
  [KeyUp 38; Frame 1016 spawning; MouseMove 200 200;
   Click 200 200 Level.constructor 1020 1021 halves; Frame 1032 halves].

(** An enemy after a sequence of frames of the given lengths. *)
Definition advance (dts : list R) (e : Enemy.t) : Enemy.t :=
  fold_left (fun e dt => Enemy.update dt e) dts e.


(** * Properties *)

(** ** Comparisons and evaluation of real expressions *)

Lemma Rltb_true (a b : R) : a < b -> JS.Rltb a b = true.
Proof. intros H; unfold JS.Rltb; destruct (Rlt_dec a b); [reflexivity | contradiction]. Qed.

Lemma Rltb_false (a b : R) : b <= a -> JS.Rltb a b = false.
Proof. intros H; unfold JS.Rltb; destruct (Rlt_dec a b); [lra | reflexivity]. Qed.

Lemma Rltb_true_iff (a b : R) : JS.Rltb a b = true <-> a < b.
Proof.
  split; [|apply Rltb_true].
  unfold JS.Rltb; destruct (Rlt_dec a b); [trivial | discriminate].
Qed.

Lemma Rltb_false_iff (a b : R) : JS.Rltb a b = false <-> b <= a.
Proof.
  split; [|apply Rltb_false].
  unfold JS.Rltb; destruct (Rlt_dec a b); [discriminate | lra].
Qed.

(** Decides the comparisons, maxima and minima of a closed real expression. *)
Ltac real_eval :=
  repeat match goal with
  | |- context [JS.Rltb ?a ?b] =>
      first [ rewrite (Rltb_true a b) by lra | rewrite (Rltb_false a b) by lra ]
  | |- context [Rmax ?a ?b] =>
      first [ rewrite (Rmax_right a b) by lra | rewrite (Rmax_left a b) by lra ]
  | |- context [Rmin ?a ?b] =>
      first [ rewrite (Rmin_left a b) by lra | rewrite (Rmin_right a b) by lra ]
  end.

(** Replaces the dimensions of the constructed level by their values. *)
Ltac level_dims :=
  unfold Level.in_grid, Level.widthPixels, Level.heightPixels in *;
  change (Level.tileWidth Level.constructor) with 101%Z in *;
  change (Level.tileHeight Level.constructor) with 83%Z in *;
  change (Level.widthTiles Level.constructor) with 5%Z in *;
  change (Level.heightTiles Level.constructor) with 6%Z in *;
  change (Level.start Level.constructor)
    with (Vec.mk (IZR (101 * 2)) (IZR (83 * 5))) in *;
  cbn [Vec.x Vec.y] in *.

(** Distributes the injection of the integers over the arithmetic. *)
Create Rewrite HintDb push_IZR.
#[local] Hint Rewrite mult_IZR minus_IZR plus_IZR opp_IZR : push_IZR.
Ltac push_IZR := autorewrite with push_IZR in *.

(** ** Level *)

Lemma constructor_tiles :
  Level.tiles Level.constructor =
  repeat Level.water 5 ++ repeat Level.stone 15 ++ repeat Level.grass 10.
Proof. reflexivity. Qed.

Lemma constructor_dimensions :
  Level.tileWidth Level.constructor = 101%Z /\
  Level.tileHeight Level.constructor = 83%Z /\
  Level.widthTiles Level.constructor = 5%Z /\
  Level.heightTiles Level.constructor = 6%Z /\
  Level.widthPixels Level.constructor = 505%Z /\
  Level.heightPixels Level.constructor = 498%Z.
Proof. repeat split; reflexivity. Qed.

Lemma index_outside (ts : list string) (i : Z) :
  ~ (0 <= i < Z.of_nat (List.length ts))%Z -> Level.index ts i = JS.Undefined.
Proof.
  intros H; unfold Level.index.
  destruct (Z.ltb_spec i 0) as [|Hi]; [reflexivity|].
  destruct (nth_error ts (Z.to_nat i)) eqn:E; [|reflexivity].
  assert (Z.to_nat i < List.length ts)%nat by (apply nth_error_Some; congruence).
  lia.
Qed.

(** C7, as stated, fails: outside the grid the lookup returns a value and
    raises nothing.  Row 6 reads past the end of the array and yields
    [undefined]; row 0, column 7 reads the tile of row 1, column 2. *)
Lemma getTile_outside_grid_returns :
  ~ Level.in_grid Level.constructor 6 0 /\
  Level.getTile Level.constructor 6 0 = JS.Normal JS.Undefined /\
  ~ (exists err, Level.getTile Level.constructor 6 0 = JS.Throw err) /\
  ~ Level.in_grid Level.constructor 0 7 /\
  Level.getTile Level.constructor 0 7 = JS.Normal (JS.Str Level.stone).
Proof.
  repeat split.
  - level_dims; lia.
  - intros [err H]; discriminate H.
  - level_dims; lia.
Qed.

(** C7, amended: [getTile] never fails.  Inside the grid it returns water
    for row 0, stone for rows 1 to 3 and grass for rows 4 and 5; outside the
    grid it returns [undefined] whenever [row * widthTiles + col] is not an
    index of the 30 tiles (and the tile at that index otherwise). *)
Theorem getTile_never_fails (row col : Z) :
  let l := Level.constructor in
  (forall err, Level.getTile l row col <> JS.Throw err) /\
  (Level.in_grid l row col ->
   Level.getTile l row col = JS.Normal (JS.Str (tile_of_row row))) /\
  (~ (0 <= row * 5 + col < 30)%Z ->
   Level.getTile l row col = JS.Normal JS.Undefined) /\
  Level.getTile l row col =
    JS.Normal (Level.index (Level.tiles l) (row * 5 + col)).
Proof.
  cbv zeta; repeat split.
  - intros err H; discriminate H.
  - intros [Hr Hc]; level_dims.
    assert (R : (row = 0 \/ row = 1 \/ row = 2 \/ row = 3 \/ row = 4 \/ row = 5)%Z) by lia.
    assert (C : (col = 0 \/ col = 1 \/ col = 2 \/ col = 3 \/ col = 4)%Z) by lia.
    repeat (destruct R as [-> | R]); try subst row;
      repeat (destruct C as [-> | C]); try subst col; reflexivity.
  - intros H; unfold Level.getTile; f_equal.
    apply index_outside; rewrite constructor_tiles; cbn; exact H.
Qed.

Lemma getTile_never_fails_witness :
  Level.in_grid Level.constructor 2 4 /\
  Level.getTile Level.constructor 2 4 = JS.Normal (JS.Str Level.stone) /\
  ~ (0 <= (-1) * 5 + 3 < 30)%Z /\
  Level.getTile Level.constructor (-1) 3 = JS.Normal JS.Undefined.
Proof.
  pose proof (getTile_never_fails 2 4) as [_ [Hin _]].
  pose proof (getTile_never_fails (-1) 3) as [_ [_ [Hout _]]].
  assert (G : Level.in_grid Level.constructor 2 4) by (level_dims; lia).
  assert (O : ~ (0 <= (-1) * 5 + 3 < 30)%Z) by lia.
  split; [exact G | split; [exact (Hin G) | split; [exact O | exact (Hout O)]]].
Defined.

(** ** Player *)

Section Clamp.

Variable l : Level.t.
Hypothesis wide : (Level.tileWidth l <= Level.widthPixels l)%Z.
Hypothesis tall : (Level.tileHeight l <= Level.heightPixels l)%Z.

Lemma clamp_on_level (p : Vec.t) : on_level l (clamp l p).
Proof.
  assert (0 <= IZR (Level.widthPixels l - Level.tileWidth l))
    by (apply IZR_le; lia).
  assert (0 <= IZR (Level.heightPixels l - Level.tileHeight l))
    by (apply IZR_le; lia).
  unfold on_level, clamp; cbn [Vec.x Vec.y].
  unfold Rmin, Rmax.
  repeat match goal with |- context [Rle_dec ?a ?b] => destruct (Rle_dec a b) end;
    lra.
Qed.

(** A position on the level is its own clamp. *)
Lemma clamp_inside (p : Vec.t) : on_level l p -> clamp l p = p.
Proof.
  destruct p as [px py]; unfold on_level, clamp; cbn [Vec.x Vec.y].
  intros [[? ?] [? ?]].
  rewrite (Rmax_right 0 px), (Rmax_right 0 py) by assumption.
  rewrite !Rmin_left by assumption; reflexivity.
Qed.

End Clamp.

(** [Player.update] is a shift followed by the clamp; an input that is not a
    direction shifts by nothing. *)
Lemma update_shift_clamp (input : string) (this : Player.t) :
  let l := Player.level this in
  let shifted :=
    if String.eqb input "left" then
      Entity.shiftPosition (Vec.mk (IZR (- Level.tileWidth l)) 0) (Player.pos this)
    else if String.eqb input "right" then
      Entity.shiftPosition (Vec.mk (IZR (Level.tileWidth l)) 0) (Player.pos this)
    else if String.eqb input "up" then
      Entity.shiftPosition (Vec.mk 0 (IZR (- Level.tileHeight l))) (Player.pos this)
    else if String.eqb input "down" then
      Entity.shiftPosition (Vec.mk 0 (IZR (Level.tileHeight l))) (Player.pos this)
    else Player.pos this in
  Player.update input this = Player.set_pos (clamp l shifted) this.
Proof.
  cbv zeta; unfold Player.update.
  destruct (String.eqb input "left");
    [| destruct (String.eqb input "right");
       [| destruct (String.eqb input "up");
          [| destruct (String.eqb input "down")]]];
    reflexivity.
Qed.

Lemma update_level (input : string) (this : Player.t) :
  Player.level (Player.update input this) = Player.level this.
Proof. rewrite update_shift_clamp; reflexivity. Qed.

Lemma update_on_level (l : Level.t) (input : string) (this : Player.t) :
  (Level.tileWidth l <= Level.widthPixels l)%Z ->
  (Level.tileHeight l <= Level.heightPixels l)%Z ->
  Player.level this = l -> on_level l (Player.pos (Player.update input this)).
Proof.
  intros W H Hl; rewrite update_shift_clamp; cbn [Player.pos Player.set_pos].
  rewrite Hl; apply clamp_on_level; assumption.
Qed.

Lemma play_on_level (l : Level.t) (inputs : list string) (this : Player.t) :
  (Level.tileWidth l <= Level.widthPixels l)%Z ->
  (Level.tileHeight l <= Level.heightPixels l)%Z ->
  Player.level this = l -> on_level l (Player.pos this) ->
  on_level l (Player.pos (play inputs this)).
Proof.
  intros W H; revert this; induction inputs as [|input inputs IH]; intros this Hl Hp.
  - exact Hp.
  - cbn [play fold_left]; apply IH.
    + rewrite update_level; exact Hl.
    + apply update_on_level; assumption.
Qed.

Lemma constructor_wide :
  (Level.tileWidth Level.constructor <= Level.widthPixels Level.constructor)%Z.
Proof. level_dims; lia. Qed.

Lemma constructor_tall :
  (Level.tileHeight Level.constructor <= Level.heightPixels Level.constructor)%Z.
Proof. level_dims; lia. Qed.

Lemma start_on_level :
  on_level Level.constructor (Level.start Level.constructor).
Proof. unfold on_level; level_dims; push_IZR; lra. Qed.

(** C4.  On the constructed level, [Player.update] leaves the player inside
    [0, widthPixels - tileWidth] x [0, heightPixels - tileHeight] whatever
    the position and the input were, hence after every sequence of inputs
    from the start position; and for each of the four directions the new
    position is the clamp of the old one shifted by exactly one tile. *)
Theorem player_update_clamped :
  let l := Level.constructor in
  (forall (pos : Vec.t) (sprite input : string),
      on_level l (Player.pos (Player.update input (Player.mk pos sprite l)))) /\
  (forall inputs : list string,
      on_level l
        (Player.pos (play inputs (Player.constructor (Level.start l) l)))) /\
  (forall (pos : Vec.t) (sprite : string),
      let this := Player.mk pos sprite l in
      Player.pos (Player.update "left" this) =
        clamp l (Vec.mk (Vec.x pos - 101) (Vec.y pos)) /\
      Player.pos (Player.update "right" this) =
        clamp l (Vec.mk (Vec.x pos + 101) (Vec.y pos)) /\
      Player.pos (Player.update "up" this) =
        clamp l (Vec.mk (Vec.x pos) (Vec.y pos - 83)) /\
      Player.pos (Player.update "down" this) =
        clamp l (Vec.mk (Vec.x pos) (Vec.y pos + 83))).
Proof.
  cbv zeta; split; [|split].
  - intros pos sprite input.
    apply update_on_level;
      [apply constructor_wide | apply constructor_tall | reflexivity].
  - intros inputs.
    apply play_on_level;
      [apply constructor_wide | apply constructor_tall | reflexivity
      | apply start_on_level].
  - intros pos sprite.
    rewrite !update_shift_clamp.
    cbn [String.eqb Ascii.eqb Bool.eqb Player.pos Player.set_pos Player.level].
    unfold Entity.shiftPosition; cbn [Vec.x Vec.y]; level_dims.
    repeat split; f_equal; f_equal; push_IZR; lra.
Qed.

(** ** Collisions *)

Lemma hypot_distance (a b : Vec.t) :
  JS.hypot (Vec.x a - Vec.x b) (Vec.y a - Vec.y b) = distance a b.
Proof. unfold JS.hypot, distance; f_equal; ring. Qed.

Lemma distance_self (a : Vec.t) : distance a a = 0.
Proof.
  unfold distance.
  replace ((Vec.x a - Vec.x a) ^ 2 + (Vec.y a - Vec.y a) ^ 2) with 0 by ring.
  apply sqrt_0.
Qed.

Lemma collides_iff (l : Level.t) (p : Vec.t) (es : list Enemy.t) :
  Entities.collides l p es = true <->
  exists enemy, In enemy es /\
                distance p (Enemy.pos enemy) < IZR (Level.tileWidth l) * 0.6.
Proof.
  induction es as [|e es IH]; cbn [Entities.collides In].
  - split; [discriminate | intros [enemy [[] _]]].
  - rewrite hypot_distance.
    destruct (JS.Rltb (distance p (Enemy.pos e)) (IZR (Level.tileWidth l) * 0.6))
      eqn:E.
    + apply Rltb_true_iff in E.
      split; [intros _; exists e; auto | reflexivity].
    + apply Rltb_false_iff in E.
      rewrite IH; split.
      * intros [enemy [Hin Hd]]; exists enemy; auto.
      * intros [enemy [[<- | Hin] Hd]]; [lra | exists enemy; auto].
Qed.

(** *** The test as the code computes it *)



(** [0.6] and [101 * 0.6] as the code holds them: the latter is the value
    written 60.599999999999994, one unit in the last place below the
    binary64 value nearest to 60.6. *)
Lemma six_tenths_value :
  Double.six_tenths = S754_finite false 5404319552844595 (-53).
Proof. vm_compute; reflexivity. Qed.

Lemma threshold_value :
  Double.mul (Double.of_Z 101) Double.six_tenths = just_below_threshold.
Proof. vm_compute; reflexivity. Qed.




(** The boundary: an enemy of the player's row whose distance is the
    threshold itself, 60.599999999999994, does not collide, for any
    [Math.hypot] that returns that distance when the other leg is zero. *)
Lemma grazing_does_not_collide (hypot : Double.t -> Double.t -> Double.t) :
  hypot just_below_threshold Double.zero = just_below_threshold ->
  Double.Entities.checkCollisions hypot grazing_doubles = false.
Proof.
  intros H; unfold Double.Entities.checkCollisions, grazing_doubles, bug, boy.
  cbn [Double.Entities.collides Double.Entities.level Double.Entities.player
       Double.Entities.enemies Double.Player.pos Double.Enemy.pos
       Double.Vec.x Double.Vec.y].
  change (Level.tileWidth Level.constructor) with 101%Z.
  rewrite threshold_value.
  change (Double.sub Double.zero (SFopp just_below_threshold))
    with just_below_threshold.
  change (Double.sub (Double.of_Z 83) (Double.of_Z 83)) with Double.zero.
  rewrite H; reflexivity.
Qed.

(** ** Spawning *)

Lemma floor_between (r : R) (z : Z) : IZR z <= r < IZR z + 1 -> JS.floor r = z.
Proof.
  intros H; unfold JS.floor; symmetry; apply Int_part_spec; lra.
Qed.

Lemma floor_row (r : R) :
  0 <= r < 1 ->
  (JS.floor (r * 3 + 1) = 1%Z /\ 0 <= r < 1 / 3) \/
  (JS.floor (r * 3 + 1) = 2%Z /\ 1 / 3 <= r < 2 / 3) \/
  (JS.floor (r * 3 + 1) = 3%Z /\ 2 / 3 <= r < 1).
Proof.
  intros H.
  destruct (Rlt_dec r (1 / 3)) as [H1 | H1];
    [| destruct (Rlt_dec r (2 / 3)) as [H2 | H2]].
  - left; split; [apply floor_between; simpl; lra | lra].
  - right; left; split; [apply floor_between; simpl; lra | lra].
  - right; right; split; [apply floor_between; simpl; lra | lra].
Qed.

(** C6.  With draws in [0, 1): a frame appends one enemy to the collection
    when the first draw is below [dt * 0.5] and leaves the collection as it
    is otherwise.  The new enemy is on a row 1, 2 or 3, with
    [y = row * tileHeight]; the second draw picks the row by thirds of
    [0, 1) (row 1 up to a third, row 2 up to two thirds, row 3 above), the
    boundaries being stated up to [boundary_margin], where the rounding of
    the product decides.  The third draw picks, half and half, between
    [x = -tileWidth] with velocity (+100, 0) and
    [x = widthPixels + tileWidth] with velocity (-100, 0). *)
Theorem checkEnemyCreation_draws (dt : R) (g : JS.rng) (this : Entities.t) :
  JS.unit_draws g ->
  let l := Entities.level this in
  let after := fst (Entities.checkEnemyCreation dt g this) in
  (g 0%nat < dt * 0.5 ->
   exists row : Z,
     (1 <= row <= 3)%Z /\
     (g 1%nat <= 1 / 3 - boundary_margin -> row = 1%Z) /\
     (1 / 3 + boundary_margin <= g 1%nat <= 2 / 3 - boundary_margin ->
      row = 2%Z) /\
     (2 / 3 + boundary_margin <= g 1%nat -> row = 3%Z) /\
     (g 2%nat < 0.5 ->
      Entities.enemies after =
        Entities.enemies this ++
        [Enemy.mk (Vec.mk (IZR (- Level.tileWidth l))
                          (IZR (row * Level.tileHeight l)))
                  "images/enemy-bug.png" (Vec.mk 100 0)]) /\
     (0.5 <= g 2%nat ->
      Entities.enemies after =
        Entities.enemies this ++
        [Enemy.mk (Vec.mk (IZR (Level.widthPixels l + Level.tileWidth l))
                          (IZR (row * Level.tileHeight l)))
                  "images/enemy-bug.png" (Vec.mk (-100) 0)])) /\
  (dt * 0.5 <= g 0%nat -> after = this) /\
  Entities.player after = Entities.player this /\
  Entities.level after = Entities.level this.
Proof.
  intros Hg; cbv zeta.
  unfold Entities.checkEnemyCreation, JS.random; cbn [fst snd].
  split; [|split; [|split]].
  - intros Htrial; rewrite (Rltb_true _ _ Htrial).
    exists (JS.floor (g 1%nat * 3 + 1)).
    assert (M : 0 < boundary_margin)
      by (unfold boundary_margin; apply Rinv_0_lt_compat; lra).
    destruct (floor_row (g 1%nat) (Hg 1%nat))
      as [[Hrow Hint] | [[Hrow Hint] | [Hrow Hint]]]; rewrite Hrow.
    + split; [lia|].
      split; [reflexivity|].
      split; [intros; lra|].
      split; [intros; lra|].
      split; intros Hside;
        [rewrite (Rltb_true _ _ Hside) | rewrite (Rltb_false _ _ Hside)];
        reflexivity.
    + split; [lia|].
      split; [intros; lra|].
      split; [reflexivity|].
      split; [intros; lra|].
      split; intros Hside;
        [rewrite (Rltb_true _ _ Hside) | rewrite (Rltb_false _ _ Hside)];
        reflexivity.
    + split; [lia|].
      split; [intros; lra|].
      split; [intros; lra|].
      split; [reflexivity|].
      split; intros Hside;
        [rewrite (Rltb_true _ _ Hside) | rewrite (Rltb_false _ _ Hside)];
        reflexivity.
  - intros Htrial; rewrite (Rltb_false _ _ Htrial); reflexivity.
  - destruct (JS.Rltb (g 0%nat) (dt * 0.5)); [|reflexivity].
    destruct (JS.Rltb (g 2%nat) 0.5); reflexivity.
  - destruct (JS.Rltb (g 0%nat) (dt * 0.5)); [|reflexivity].
    destruct (JS.Rltb (g 2%nat) 0.5); reflexivity.
Qed.

Lemma checkEnemyCreation_draws_witness :
  let this := Entities.constructor Level.constructor in
  (JS.unit_draws spawning /\
   spawning 0%nat < 0.1 * 0.5 /\
   exists row : Z,
     (1 <= row <= 3)%Z /\
     (0.5 <= spawning 2%nat ->
      Entities.enemies (fst (Entities.checkEnemyCreation 0.1 spawning this)) =
        Entities.enemies this ++
        [Enemy.mk (Vec.mk (IZR (Level.widthPixels (Entities.level this)
                                + Level.tileWidth (Entities.level this)))
                          (IZR (row * Level.tileHeight (Entities.level this))))
                  "images/enemy-bug.png" (Vec.mk (-100) 0)])) /\
  (JS.unit_draws halves /\
   0.1 * 0.5 <= halves 0%nat /\
   fst (Entities.checkEnemyCreation 0.1 halves this) = this).
Proof.
  cbv zeta.
  assert (U : JS.unit_draws spawning)
    by (intros [|n]; unfold spawning; lra).
  assert (T : spawning 0%nat < 0.1 * 0.5) by (unfold spawning; lra).
  assert (U' : JS.unit_draws halves) by (intros n; unfold halves; lra).
  assert (T' : 0.1 * 0.5 <= halves 0%nat) by (unfold halves; lra).
  split.
  - split; [exact U | split; [exact T |]].
    destruct (proj1 (checkEnemyCreation_draws
                       0.1 spawning (Entities.constructor Level.constructor) U) T)
      as [row [Hrow [_ [_ [_ [_ Hright]]]]]].
    exists row; split; [exact Hrow | exact Hright].
  - split; [exact U' | split; [exact T' |]].
    exact (proj1 (proj2 (checkEnemyCreation_draws
                           0.1 halves (Entities.constructor Level.constructor) U'))
                 T').
Defined.

(** ** The time step *)

(** C8, as stated, fails: when the clock reads less than at the previous
    frame, the time step handed to [update] is negative. *)
Lemma frame_dt_negative :
  ~ (0 <= Engine.frame_dt 0 (started 1000) <= 0.1).
Proof.
  unfold Engine.frame_dt, Engine.updateTimer, started; cbn [fst Engine.lastTime
    Engine.initialiseLevel Engine.set_lastTime].
  replace (IZR (0 - 1000) / 1000) with (-1) by (push_IZR; lra).
  real_eval; lra.
Qed.

(** C8, amended: the time step handed to [update] is the smaller of 0.1 and
    the elapsed time in seconds; it never exceeds 0.1, and it lies in
    [0, 0.1] whenever the clock has not gone backwards since the previous
    frame. *)
Theorem frame_dt_capped (now : Z) (this : Engine.t) :
  Engine.frame_dt now this =
    Rmin 0.1 (IZR (now - Engine.lastTime this) / 1000) /\
  Engine.frame_dt now this <= 0.1 /\
  ((Engine.lastTime this <= now)%Z -> 0 <= Engine.frame_dt now this <= 0.1) /\
  (forall g, Engine.runLoopIteration now g this =
             Engine.update (Engine.frame_dt now this) g
                           (Engine.set_lastTime now this)).
Proof.
  unfold Engine.frame_dt, Engine.runLoopIteration, Engine.updateTimer; cbn [fst].
  split; [reflexivity | split; [apply Rmin_l | split; [|reflexivity]]].
  intros Hle; split; [|apply Rmin_l].
  assert (0 <= IZR (now - Engine.lastTime this)) by (apply IZR_le; lia).
  apply Rmin_glb; lra.
Qed.

Lemma frame_dt_capped_witness :
  (Engine.lastTime (started 1000) <= 1016)%Z /\
  0 <= Engine.frame_dt 1016 (started 1000) <= 0.1.
Proof.
  assert (H : (Engine.lastTime (started 1000) <= 1016)%Z) by (cbn; lia).
  split; [exact H|].
  exact (proj1 (proj2 (proj2 (frame_dt_capped 1016 (started 1000)))) H).
Defined.

(** ** The removal sweep *)

Lemma removeEnemy_false (l : Level.t) (e : Enemy.t) :
  Entities.removeEnemy l e = false.
Proof. reflexivity. Qed.

Lemma scan_none (l : Level.t) (es : list Enemy.t) (k : nat) :
  Entities.scan l es k = None.
Proof.
  revert k; induction es as [|e es IH]; intros k; cbn [Entities.scan].
  - reflexivity.
  - rewrite removeEnemy_false; apply IH.
Qed.

Lemma sweep_id (l : Level.t) (es : list Enemy.t) : Entities.sweep l es = es.
Proof.
  funelim (Entities.sweep l es).
  - pose proof (scan_none l es 0) as none; congruence.
  - reflexivity.
Qed.

Lemma checkEnemyRemoval_id (this : Entities.t) :
  Entities.checkEnemyRemoval this = this.
Proof.
  unfold Entities.checkEnemyRemoval; rewrite sweep_id.
  destruct this; reflexivity.
Qed.

(** C2, on the code: an enemy that moves left and is a full tile past the
    left edge is still in the collection after the removal sweep.  The scan
    reads [enemyToCheck.x], a property an enemy does not have, so neither
    test ever holds. *)
Theorem checkEnemyRemoval_keeps_off_screen_enemy :
  let this :=
    Entities.set_enemies [gone_left] (Entities.constructor Level.constructor) in
  off_screen (Entities.level this) gone_left /\
  Enemy.get gone_left "x" = JS.Undefined /\
  Entities.enemies (Entities.checkEnemyRemoval this) = [gone_left].
Proof.
  cbv zeta; split; [|split].
  - left; unfold gone_left; cbn [Enemy.pos Enemy.movement Enemy.constructor Vec.x].
    change (Entities.level _) with Level.constructor.
    level_dims; push_IZR; lra.
  - reflexivity.
  - rewrite checkEnemyRemoval_id; reflexivity.
Qed.

(** ** The frame update *)

Lemma move_zero (velocity pos : Vec.t) : Entity.move velocity 0 pos = pos.
Proof.
  destruct pos as [px py]; unfold Entity.move; cbn [Vec.x Vec.y].
  f_equal; ring.
Qed.

Lemma enemies_update_zero (es : list Enemy.t) : map (Enemy.update 0) es = es.
Proof.
  induction es as [|e es IH]; [reflexivity|].
  cbn [map]; rewrite IH; f_equal.
  destruct e; unfold Enemy.update; cbn [Enemy.pos Enemy.movement Enemy.sprite].
  rewrite move_zero; reflexivity.
Qed.

(** A frame in which the first draw is not below [dt * 0.5]. *)
Lemma Entities_update_no_spawn (dt : R) (g : JS.rng) (this : Entities.t) :
  dt * 0.5 <= g 0%nat ->
  Entities.update dt g this =
    (let moved :=
       Entities.set_enemies (map (Enemy.update dt) (Entities.enemies this)) this in
     (negb (Entities.checkCollisions moved), moved, snd (JS.random g))).
Proof.
  intros H; unfold Entities.update, Entities.checkEnemyCreation, JS.random.
  rewrite (Rltb_false _ _ H), checkEnemyRemoval_id; reflexivity.
Qed.

(** The reads of [Engine.update] on the boolean it receives. *)
Lemma Boolean_get_messages (b : bool) :
  JS.Boolean_get b "hitEnemy" = JS.Undefined /\
  JS.Boolean_get b "levelWon" = JS.Undefined /\
  JS.Boolean_get b "pickedUpGem" = JS.Undefined.
Proof. repeat split. Qed.

Lemma Engine_update_state_score (dt : R) (g : JS.rng) (this : Engine.t) :
  Engine.state (fst (Engine.update dt g this)) = Engine.state this /\
  Engine.score (fst (Engine.update dt g this)) = Engine.score this.
Proof.
  unfold Engine.update.
  cbn [Engine.state Engine.set_timeSinceReset].
  destruct (negb (Engine.states_eqb (Engine.state this) Engine.running));
    [split; reflexivity|].
  match goal with
  | |- context [Entities.update dt g ?e] =>
      destruct (Entities.update dt g e) as [[entityMessages updated] g1]
  end.
  cbn [JS.Boolean_get JS.get JS.own existsb JS.Object_prototype JS.ToBoolean
       String.eqb Ascii.eqb Bool.eqb orb fst].
  match goal with
  | |- context [Engine.playerInputAllowed ?e] =>
      destruct (Engine.playerInputAllowed e)
  end; split; reflexivity.
Qed.

Lemma Engine_update_entities (dt : R) (g : JS.rng) (this : Engine.t) :
  Engine.state this = Engine.running ->
  Engine.entities (fst (Engine.update dt g this)) =
  snd (fst (Entities.update dt g (Engine.entities this))).
Proof.
  intros Hrun; unfold Engine.update.
  cbn [Engine.state Engine.set_timeSinceReset]; rewrite Hrun.
  cbn [Engine.states_eqb negb].
  match goal with
  | |- context [Engine.playerInputAllowed ?e] =>
      destruct (Engine.playerInputAllowed e)
  end;
  cbn [Engine.entities Engine.set_inputsEnabled Engine.set_timeSinceReset];
  destruct (Entities.update dt g (Engine.entities this))
    as [[entityMessages updated] g1];
  reflexivity.
Qed.

(** C9.  With draws in [0, 1), a frame with [dt = 0] leaves the entities
    (the player and every enemy, with their positions), the score and the
    game state as they were, in every state of the engine. *)
Theorem update_zero_dt (g : JS.rng) (this : Engine.t) :
  JS.unit_draws g ->
  let after := fst (Engine.update 0 g this) in
  Engine.entities after = Engine.entities this /\
  Engine.score after = Engine.score this /\
  Engine.state after = Engine.state this.
Proof.
  intros Hg; cbv zeta.
  destruct (Engine_update_state_score 0 g this) as [Hstate Hscore].
  split; [|split; assumption].
  destruct (Engine.states_eqb (Engine.state this) Engine.running) eqn:Hrun.
  - assert (Engine.state this = Engine.running) as Hr
      by (destruct (Engine.state this); (discriminate || reflexivity)).
    rewrite (Engine_update_entities 0 g this Hr).
    rewrite Entities_update_no_spawn by (pose proof (Hg 0%nat); lra).
    cbn [fst snd]; rewrite enemies_update_zero.
    destruct (Engine.entities this); reflexivity.
  - unfold Engine.update.
    cbn [Engine.state Engine.set_timeSinceReset]; rewrite Hrun; reflexivity.
Qed.

Lemma update_zero_dt_witness :
  JS.unit_draws halves /\
  Engine.entities (fst (Engine.update 0 halves approaching)) =
    Engine.entities approaching /\
  Engine.score (fst (Engine.update 0 halves approaching)) =
    Engine.score approaching /\
  Engine.state (fst (Engine.update 0 halves approaching)) =
    Engine.state approaching.
Proof.
  assert (U : JS.unit_draws halves) by (intros n; unfold halves; lra).
  split; [exact U | exact (update_zero_dt halves approaching U)].
Defined.

(** C10.  [Entities.update] returns a boolean, the negation of
    [checkCollisions()] on the collection as it is after the spawn check, the
    removal sweep and the motion of the enemies; the value has none of the
    fields [hitEnemy], [levelWon], [pickedUpGem]. *)
Theorem Entities_update_returns_boolean (dt : R) (g : JS.rng) (this : Entities.t) :
  let created := fst (Entities.checkEnemyCreation dt g this) in
  let swept := Entities.checkEnemyRemoval created in
  let moved :=
    Entities.set_enemies (map (Enemy.update dt) (Entities.enemies swept)) swept in
  let result := fst (fst (Entities.update dt g this)) in
  result = negb (Entities.checkCollisions moved) /\
  snd (fst (Entities.update dt g this)) = moved /\
  (result = true <-> Entities.checkCollisions moved = false) /\
  JS.Boolean_get result "hitEnemy" = JS.Undefined /\
  JS.Boolean_get result "levelWon" = JS.Undefined /\
  JS.Boolean_get result "pickedUpGem" = JS.Undefined.
Proof.
  cbv zeta; unfold Entities.update.
  destruct (Entities.checkEnemyCreation dt g this) as [created g1]; cbn [fst snd].
  split; [reflexivity | split; [reflexivity | split]].
  - destruct (Entities.checkCollisions _); cbn [negb]; split; congruence.
  - apply Boolean_get_messages.
Qed.

Lemma climbed_player :
  Player.update "up" (Player.update "up"
    (Player.constructor (Level.start Level.constructor) Level.constructor)) =
  Player.constructor (Vec.mk 202 249) Level.constructor.
Proof.
  rewrite !update_shift_clamp.
  cbn [String.eqb Ascii.eqb Bool.eqb Player.pos Player.set_pos Player.level
       Player.constructor Player.sprite].
  unfold Player.constructor, Player.set_pos.
  cbn [Player.pos Player.sprite Player.level].
  unfold clamp, Entity.shiftPosition; cbn [Vec.x Vec.y].
  level_dims; push_IZR; real_eval.
  f_equal; f_equal; lra.
Qed.

Lemma approaching_entities :
  Engine.entities approaching =
  Entities.mk [Enemy.constructor (Vec.mk 192 249) (Vec.mk 100 0)]
              (Player.constructor (Vec.mk 202 249) Level.constructor)
              Level.constructor.
Proof.
  unfold approaching, started, Engine.keyup, InputHandler.keyup.
  cbn [InputHandler.lookup InputHandler.allowedKeys Z.eqb Pos.eqb JS.ToBoolean
       String.eqb Ascii.eqb Bool.eqb negb].
  cbn [Engine.entities Engine.set_entities Engine.initialiseLevel
       Engine.set_state Engine.set_lastTime Engine.constructor
       Entities.set_player Entities.set_enemies Entities.player
       Entities.enemies Entities.level Entities.constructor].
  rewrite climbed_player; reflexivity.
Qed.

Lemma approaching_running : Engine.state approaching = Engine.running.
Proof. reflexivity. Qed.

Lemma met_position :
  Enemy.update 0.1 (Enemy.constructor (Vec.mk 192 249) (Vec.mk 100 0)) =
  Enemy.constructor (Vec.mk 202 249) (Vec.mk 100 0).
Proof.
  unfold Enemy.update, Enemy.constructor, Entity.move.
  cbn [Enemy.pos Enemy.movement Enemy.sprite Vec.x Vec.y].
  f_equal; f_equal; lra.
Qed.

(** C1, on the code: in a running game an enemy moves onto the player's
    position during the frame and [checkCollisions] detects it, yet the
    state after the frame is still [running].  [Entities.update] hands
    [Engine.update] the boolean [false], on which the reads of [hitEnemy],
    [levelWon] and [pickedUpGem] all yield [undefined]. *)
Theorem update_ignores_collision :
  let after := fst (Engine.update 0.1 halves approaching) in
  Engine.state approaching = Engine.running /\
  Entities.checkCollisions (Engine.entities after) = true /\
  fst (fst (Entities.update 0.1 halves (Engine.entities approaching))) = false /\
  Engine.state after = Engine.running /\
  Engine.score after = Engine.score approaching.
Proof.
  cbv zeta.
  pose proof approaching_running as Hrun.
  assert (Hdraw : 0.1 * 0.5 <= halves 0%nat) by (unfold halves; lra).
  destruct (Engine_update_state_score 0.1 halves approaching) as [Hstate Hscore].
  rewrite (Engine_update_entities _ _ _ Hrun).
  rewrite (Entities_update_no_spawn _ _ _ Hdraw).
  rewrite approaching_entities.
  cbn [fst snd Entities.enemies Entities.set_enemies Entities.player
       Entities.level map].
  rewrite met_position.
  change (Entities.set_enemies _ _) with touching.
  assert (Hhit : Entities.checkCollisions touching = true).
  { apply collides_iff; eexists; split; [left; reflexivity|].
    cbn [touching Entities.player Entities.level Player.constructor Player.pos
         Enemy.constructor Enemy.pos].
    rewrite distance_self.
    change (Level.tileWidth Level.constructor) with 101%Z; lra. }
  rewrite Hhit.
  split; [exact Hrun | split; [reflexivity | split; [reflexivity | split]]].
  - rewrite Hstate; exact Hrun.
  - exact Hscore.
Qed.

(** C3, on the code: a ['keyup'] event for the left arrow, delivered right
    after the start while the grace period runs ([timeSinceReset = 0], so
    [playerInputAllowed()] is false) and before the engine has raised
    [inputsEnabled], moves the player one tile to the left.  The listener
    calls [player.update] for every allowed key and consults neither. *)
Theorem keyup_moves_player_in_grace_period :
  let before := started 0 in
  let after := Engine.keyup 37 before in
  Engine.timeSinceReset before = 0 /\
  Engine.playerInputAllowed before = false /\
  InputHandler.inputsEnabled (Engine.inputHandler before) = JS.Undefined /\
  Player.pos (Entities.player (Engine.entities before)) = Vec.mk 202 415 /\
  Player.pos (Entities.player (Engine.entities after)) = Vec.mk 101 415.
Proof.
  cbv zeta; split; [reflexivity | split; [|split; [reflexivity | split]]].
  - unfold Engine.playerInputAllowed; apply Rltb_false; cbn; lra.
  - unfold started; cbn [Engine.entities Engine.initialiseLevel Engine.set_state
      Engine.set_lastTime Engine.constructor Entities.constructor Entities.player
      Player.constructor Player.pos].
    level_dims; push_IZR; f_equal; lra.
  - unfold started, Engine.keyup, InputHandler.keyup.
    cbn [InputHandler.lookup InputHandler.allowedKeys Z.eqb Pos.eqb JS.ToBoolean
         String.eqb Ascii.eqb Bool.eqb negb].
    cbn [Engine.entities Engine.set_entities Engine.initialiseLevel
         Engine.set_state Engine.set_lastTime Engine.constructor
         Entities.set_player Entities.player Entities.constructor].
    rewrite update_shift_clamp.
    cbn [String.eqb Ascii.eqb Bool.eqb Player.pos Player.set_pos Player.level
         Player.constructor].
    unfold clamp, Entity.shiftPosition; cbn [Vec.x Vec.y].
    level_dims; push_IZR; real_eval.
    f_equal; lra.
Qed.

(** * Further properties of the code *)

(** ** Level: the generated layout *)

Lemma repeat_loop_push (s : string) (n : nat) (l : Level.t) :
  JS.repeat_loop n (Level.push s) l =
  Level.set_tiles (Level.tiles l ++ repeat s n) l.
Proof.
  revert l; induction n as [|n IH]; intros l; cbn [JS.repeat_loop repeat].
  - rewrite app_nil_r; destruct l; reflexivity.
  - rewrite IH; unfold Level.push, Level.set_tiles; cbn [Level.tiles
      Level.tileWidth Level.tileHeight Level.widthTiles Level.heightTiles
      Level.start].
    rewrite <- app_assoc; reflexivity.
Qed.

(** X1.  [generateTiles] appends one row of water, three of stone and two of
    grass, each [widthTiles] long, to the tiles the level already has, and
    touches no other field: six rows whatever [heightTiles] says. *)
Theorem generateTiles_layout (l : Level.t) :
  let w := Z.to_nat (Level.widthTiles l) in
  Level.generateTiles l =
    Level.set_tiles
      (Level.tiles l ++ repeat Level.water w ++ repeat Level.stone (3 * w)
                     ++ repeat Level.grass (2 * w)) l /\
  List.length (Level.tiles (Level.generateTiles l)) =
    (List.length (Level.tiles l) + 6 * w)%nat.
Proof.
  cbv zeta.
  assert (E : Level.generateTiles l =
    Level.set_tiles
      (Level.tiles l ++ repeat Level.water (Z.to_nat (Level.widthTiles l))
         ++ repeat Level.stone (3 * Z.to_nat (Level.widthTiles l))
         ++ repeat Level.grass (2 * Z.to_nat (Level.widthTiles l))) l).
  { unfold Level.generateTiles; cbn [JS.repeat_loop].
    rewrite !repeat_loop_push.
    unfold Level.set_tiles; cbn [Level.tiles Level.tileWidth Level.tileHeight
      Level.widthTiles Level.heightTiles Level.start].
    f_equal.
    replace (3 * Z.to_nat (Level.widthTiles l))%nat
      with (Z.to_nat (Level.widthTiles l) + (Z.to_nat (Level.widthTiles l)
            + Z.to_nat (Level.widthTiles l)))%nat by lia.
    replace (2 * Z.to_nat (Level.widthTiles l))%nat
      with (Z.to_nat (Level.widthTiles l) + Z.to_nat (Level.widthTiles l))%nat
      by lia.
    rewrite !repeat_app, <- !app_assoc; reflexivity. }
  split; [exact E|].
  rewrite E; unfold Level.set_tiles; cbn [Level.tiles].
  rewrite !length_app, !repeat_length; lia.
Qed.

Lemma nth_error_repeat_app (a : string) (n : nat) (rest : list string) (i : nat) :
  nth_error (repeat a n ++ rest) i =
  if (i <? n)%nat then Some a else nth_error rest (i - n).
Proof.
  destruct (Nat.ltb_spec i n) as [H | H].
  - rewrite nth_error_app1 by (rewrite repeat_length; exact H).
    apply nth_error_repeat; exact H.
  - rewrite nth_error_app2 by (rewrite repeat_length; exact H).
    rewrite repeat_length; reflexivity.
Qed.

(** X2.  On a level of any width whose tiles were generated from an empty
    array, the tile at a row from 0 to 5 and a column from 0 to
    [widthTiles - 1] is water for row 0, stone for rows 1 to 3 and grass for
    rows 4 and 5: the row-major index matches the generated layout. *)
Theorem getTile_generated (l : Level.t) (row col : Z) :
  Level.tiles l = [] ->
  (0 <= row < 6)%Z ->
  (0 <= col < Level.widthTiles l)%Z ->
  Level.getTile (Level.generateTiles l) row col =
    JS.Normal (JS.Str (tile_of_row row)).
Proof.
  intros Hnil Hrow Hcol.
  destruct (generateTiles_layout l) as [E _]; cbv zeta in E; rewrite E.
  unfold Level.getTile, Level.set_tiles, Level.index.
  cbn [Level.tiles Level.widthTiles]; rewrite Hnil; cbn [app].
  f_equal.
  set (w := Level.widthTiles l) in *.
  destruct (Z.ltb_spec (row * w + col) 0) as [Hneg | _]; [nia|].
  rewrite <- (app_nil_r (repeat Level.grass _)), !nth_error_repeat_app.
  assert (R : (row = 0 \/ row = 1 \/ row = 2 \/ row = 3 \/ row = 4 \/ row = 5)%Z)
    by lia.
  unfold tile_of_row.
  repeat (destruct R as [-> | R]); try subst row; cbn [Z.eqb Z.leb Z.compare Pos.compare Pos.compare_cont];
    repeat match goal with
    | |- context [(?a <? ?b)%nat] => destruct (Nat.ltb_spec a b); try lia
    end;
    try reflexivity.
Qed.

Lemma getTile_generated_witness :
  let l := Level.mk 101 83 7 6 (Vec.mk 0 0) [] in
  Level.tiles l = [] /\ (0 <= 3 < 6)%Z /\ (0 <= 6 < Level.widthTiles l)%Z /\
  Level.getTile (Level.generateTiles l) 3 6 = JS.Normal (JS.Str Level.stone).
Proof.
  cbv zeta.
  assert (N : Level.tiles (Level.mk 101 83 7 6 (Vec.mk 0 0) []) = [])
    by reflexivity.
  assert (Rw : (0 <= 3 < 6)%Z) by lia.
  assert (C : (0 <= 6 < Level.widthTiles (Level.mk 101 83 7 6 (Vec.mk 0 0) []))%Z)
    by (cbn [Level.widthTiles]; lia).
  split; [exact N | split; [exact Rw | split; [exact C |]]].
  exact (getTile_generated _ 3 6 N Rw C).
Defined.

(** X3.  [getTile] does not check the column: column [col + widthTiles] of
    a row reads the same array element as column [col] of the next row. *)
Theorem getTile_column_overflow (l : Level.t) (row col : Z) :
  Level.getTile l row (col + Level.widthTiles l) = Level.getTile l (row + 1) col.
Proof.
  unfold Level.getTile; do 2 f_equal; ring.
Qed.

(** ** Enemy: motion over several frames *)

(** X4.  An enemy keeps its course: over any sequence of frames its
    velocity and sprite stay the same, its [y] stays the same when its
    vertical velocity is 0, and when no time step is negative it never moves
    against its velocity ([x] does not decrease for a velocity to the right,
    does not increase for one to the left). *)
Theorem advance_keeps_course (dts : list R) (e : Enemy.t) :
  Enemy.movement (advance dts e) = Enemy.movement e /\
  Enemy.sprite (advance dts e) = Enemy.sprite e /\
  (Vec.y (Enemy.movement e) = 0 ->
   Vec.y (Enemy.pos (advance dts e)) = Vec.y (Enemy.pos e)) /\
  (Forall (fun dt => 0 <= dt) dts ->
   (0 <= Vec.x (Enemy.movement e) ->
    Vec.x (Enemy.pos e) <= Vec.x (Enemy.pos (advance dts e))) /\
   (Vec.x (Enemy.movement e) <= 0 ->
    Vec.x (Enemy.pos (advance dts e)) <= Vec.x (Enemy.pos e))).
Proof.
  revert e; induction dts as [|dt dts IH]; intros e.
  - cbn [advance fold_left]; repeat split; intros; lra.
  - change (advance (dt :: dts) e) with (advance dts (Enemy.update dt e)).
    destruct (IH (Enemy.update dt e)) as [Hm [Hs [Hy Hx]]].
    split; [exact Hm | split; [exact Hs | split]].
    + intros Hvy; rewrite (Hy Hvy).
      unfold Enemy.update, Entity.move; cbn [Enemy.pos Vec.y].
      rewrite Hvy; ring.
    + intros Hall; inversion Hall as [|? ? Hdt Hrest]; subst.
      destruct (Hx Hrest) as [Hright Hleft].
      change (Vec.x (Enemy.movement (Enemy.update dt e)))
        with (Vec.x (Enemy.movement e)) in Hright, Hleft.
      change (Vec.x (Enemy.pos (Enemy.update dt e)))
        with (Vec.x (Enemy.pos e) + Vec.x (Enemy.movement e) * dt)
        in Hright, Hleft.
      split; intros Hv; [specialize (Hright Hv) | specialize (Hleft Hv)]; nra.
Qed.

Lemma advance_keeps_course_witness :
  let e := Enemy.constructor (Vec.mk (-101) 83) (Vec.mk 100 0) in
  Vec.y (Enemy.movement e) = 0 /\
  Forall (fun dt => 0 <= dt) [0.1; 0.004] /\
  0 <= Vec.x (Enemy.movement e) /\
  Vec.y (Enemy.pos (advance [0.1; 0.004] e)) = Vec.y (Enemy.pos e) /\
  Vec.x (Enemy.pos e) <= Vec.x (Enemy.pos (advance [0.1; 0.004] e)).
Proof.
  cbv zeta.
  set (e := Enemy.constructor (Vec.mk (-101) 83) (Vec.mk 100 0)).
  assert (V : Vec.y (Enemy.movement e) = 0) by reflexivity.
  assert (D : Forall (fun dt => 0 <= dt) [0.1; 0.004])
    by (repeat constructor; lra).
  assert (P : 0 <= Vec.x (Enemy.movement e))
    by (cbn [e Enemy.constructor Enemy.movement Vec.x]; lra).
  destruct (advance_keeps_course [0.1; 0.004] e) as [_ [_ [Hy Hx]]].
  split; [exact V | split; [exact D | split; [exact P | split]]].
  - exact (Hy V).
  - exact (proj1 (Hx D) P).
Defined.

(** ** Player: moves on the constructed level *)

Lemma clamp_step (n k t d : Z) :
  (0 <= k <= n)%Z -> (0 < t)%Z -> (-1 <= d <= 1)%Z ->
  Rmin (Rmax 0 (IZR (k * t) + IZR (d * t))) (IZR (n * t)) =
  IZR (Z.min n (Z.max 0 (k + d)) * t).
Proof.
  intros Hk Ht Hd.
  rewrite <- plus_IZR.
  assert (0 <= n * t)%Z by nia.
  destruct (Z_lt_le_dec (k + d) 0) as [Hlow | Hlow].
  - replace (Z.min n (Z.max 0 (k + d))) with 0%Z by lia.
    assert (k * t + d * t <= 0)%Z by nia.
    rewrite Rmax_left by (apply IZR_le; assumption).
    rewrite Rmin_left by (apply IZR_le; assumption).
    reflexivity.
  - assert (0 <= k * t + d * t)%Z by nia.
    rewrite Rmax_right by (apply IZR_le; assumption).
    destruct (Z_lt_le_dec n (k + d)) as [Hhigh | Hhigh].
    + replace (Z.min n (Z.max 0 (k + d))) with n by lia.
      rewrite Rmin_right by (apply IZR_le; nia); reflexivity.
    + replace (Z.min n (Z.max 0 (k + d))) with (k + d)%Z by lia.
      rewrite Rmin_left by (apply IZR_le; nia).
      f_equal; ring.
Qed.

Lemma clamp_coord (n k t d : Z) (s : R) :
  (0 <= k <= n)%Z -> (0 < t)%Z -> (-1 <= d <= 1)%Z -> s = IZR (d * t) ->
  Rmin (Rmax 0 (IZR (k * t) + s)) (IZR (n * t)) =
  IZR (Z.min n (Z.max 0 (k + d)) * t).
Proof. intros Hk Ht Hd ->; apply clamp_step; assumption. Qed.

Lemma clamp_coord_still (n k t : Z) :
  (0 <= k <= n)%Z -> (0 < t)%Z ->
  Rmin (Rmax 0 (IZR (k * t))) (IZR (n * t)) = IZR (k * t).
Proof.
  intros Hk Ht.
  rewrite Rmax_right by (apply IZR_le; nia).
  apply Rmin_left, IZR_le; nia.
Qed.

Lemma update_tile (input sprite : string) (col row : Z) :
  (0 <= col <= 4)%Z -> (0 <= row <= 5)%Z ->
  Player.update input
    (Player.mk (Vec.mk (IZR (col * 101)) (IZR (row * 83))) sprite Level.constructor) =
  Player.mk (Vec.mk (IZR (fst (next_tile input col row) * 101))
                    (IZR (snd (next_tile input col row) * 83)))
            sprite Level.constructor.
Proof.
  intros Hc Hr.
  rewrite update_shift_clamp; unfold next_tile, Player.set_pos.
  cbn [Player.level Player.pos Player.sprite].
  unfold clamp; level_dims.
  change (101 * 5 - 101)%Z with (4 * 101)%Z.
  change (83 * 6 - 83)%Z with (5 * 83)%Z.
  destruct (String.eqb input "left");
    [| destruct (String.eqb input "right");
       [| destruct (String.eqb input "up");
          [| destruct (String.eqb input "down")]]];
    unfold Entity.shiftPosition; cbn [Vec.x Vec.y fst snd];
    f_equal; f_equal.
  - rewrite (clamp_coord 4 col 101 (-1)) by (lia || reflexivity); f_equal; lia.
  - rewrite (clamp_coord 5 row 83 0) by (lia || reflexivity); f_equal; lia.
  - rewrite (clamp_coord 4 col 101 1) by (lia || reflexivity); f_equal; lia.
  - rewrite (clamp_coord 5 row 83 0) by (lia || reflexivity); f_equal; lia.
  - rewrite (clamp_coord 4 col 101 0) by (lia || reflexivity); f_equal; lia.
  - rewrite (clamp_coord 5 row 83 (-1)) by (lia || reflexivity); f_equal; lia.
  - rewrite (clamp_coord 4 col 101 0) by (lia || reflexivity); f_equal; lia.
  - rewrite (clamp_coord 5 row 83 1) by (lia || reflexivity); f_equal; lia.
  - apply clamp_coord_still; lia.
  - apply clamp_coord_still; lia.
Qed.

Lemma next_tile_bounds (input : string) (col row : Z) :
  (0 <= col <= 4)%Z -> (0 <= row <= 5)%Z ->
  (0 <= fst (next_tile input col row) <= 4)%Z /\
  (0 <= snd (next_tile input col row) <= 5)%Z.
Proof.
  intros Hc Hr; unfold next_tile.
  destruct (String.eqb input "left");
    [| destruct (String.eqb input "right");
       [| destruct (String.eqb input "up");
          [| destruct (String.eqb input "down")]]];
    cbn [fst snd]; lia.
Qed.

Lemma play_from_tile (inputs : list string) (sprite : string) (col row : Z) :
  (0 <= col <= 4)%Z -> (0 <= row <= 5)%Z ->
  play inputs
    (Player.mk (Vec.mk (IZR (col * 101)) (IZR (row * 83))) sprite Level.constructor) =
  Player.mk (Vec.mk (IZR (fst (walk inputs (col, row)) * 101))
                    (IZR (snd (walk inputs (col, row)) * 83)))
            sprite Level.constructor /\
  (0 <= fst (walk inputs (col, row)) <= 4)%Z /\
  (0 <= snd (walk inputs (col, row)) <= 5)%Z.
Proof.
  revert col row; induction inputs as [|input inputs IH]; intros col row Hc Hr.
  - cbn [play walk fold_left fst snd]; auto.
  - cbn [play walk fold_left fst snd].
    rewrite update_tile by assumption.
    destruct (next_tile_bounds input col row Hc Hr) as [Hc' Hr'].
    specialize (IH _ _ Hc' Hr').
    rewrite <- surjective_pairing in IH; exact IH.
Qed.

(** X5.  From the start position (column 2, row 5) the player is always on a
    tile: after any sequence of inputs the position is [(col * 101, row * 83)]
    for the column and row obtained by stepping one tile per direction name,
    stopping at the edges (columns 0 to 4, rows 0 to 5) and ignoring every
    other input. *)
Theorem play_walks_tiles (inputs : list string) :
  let l := Level.constructor in
  let tile := walk inputs (2, 5)%Z in
  Player.pos (play inputs (Player.constructor (Level.start l) l)) =
    Vec.mk (IZR (fst tile * 101)) (IZR (snd tile * 83)) /\
  (0 <= fst tile <= 4)%Z /\ (0 <= snd tile <= 5)%Z /\
  on_tile l (Player.pos (play inputs (Player.constructor (Level.start l) l))).
Proof.
  cbv zeta.
  destruct (play_from_tile inputs "images/char-boy.png" 2 5) as [E [Hc Hr]];
    [lia | lia |].
  change (Player.constructor (Level.start Level.constructor) Level.constructor)
    with (Player.mk (Vec.mk (IZR (2 * 101)) (IZR (5 * 83)))
                    "images/char-boy.png" Level.constructor).
  rewrite E; cbn [Player.pos].
  split; [reflexivity | split; [exact Hc | split; [exact Hr |]]].
  exists (fst (walk inputs (2, 5)%Z)), (snd (walk inputs (2, 5)%Z)).
  level_dims; repeat split; lia.
Qed.

(** X6.  On the constructed level a move and the opposite move cancel
    whenever the first one is not stopped by an edge: left then right when
    [x >= 101], right then left when [x <= 303], up then down when [y >= 83],
    down then up when [y <= 332]. *)
Theorem opposite_moves_cancel (pos : Vec.t) (sprite : string) :
  let l := Level.constructor in
  let this := Player.mk pos sprite l in
  on_level l pos ->
  (101 <= Vec.x pos -> Player.update "right" (Player.update "left" this) = this) /\
  (Vec.x pos <= 303 -> Player.update "left" (Player.update "right" this) = this) /\
  (83 <= Vec.y pos -> Player.update "down" (Player.update "up" this) = this) /\
  (Vec.y pos <= 332 -> Player.update "up" (Player.update "down" this) = this).
Proof.
  cbv zeta; destruct pos as [x y]; unfold on_level; cbn [Vec.x Vec.y].
  level_dims; push_IZR; intros [Hx Hy].
  repeat split; intros Hroom;
    rewrite !update_shift_clamp;
    cbn [String.eqb Ascii.eqb Bool.eqb Player.pos Player.set_pos Player.level];
    unfold Player.set_pos, clamp, Entity.shiftPosition;
    cbn [Vec.x Vec.y Player.sprite Player.level];
    level_dims; push_IZR; real_eval; f_equal; f_equal; lra.
Qed.

Lemma opposite_moves_cancel_witness :
  let this := Player.mk (Vec.mk 202 415) "images/char-boy.png" Level.constructor in
  on_level Level.constructor (Vec.mk 202 415) /\
  101 <= 202 /\
  Player.update "right" (Player.update "left" this) = this.
Proof.
  cbv zeta.
  assert (O : on_level Level.constructor (Vec.mk 202 415))
    by (unfold on_level; level_dims; push_IZR; lra).
  assert (H : 101 <= Vec.x (Vec.mk 202 415)) by (cbn [Vec.x]; lra).
  split; [exact O | split; [lra |]].
  exact (proj1 (opposite_moves_cancel (Vec.mk 202 415) "images/char-boy.png" O) H).
Defined.

(** X7.  On the constructed level a move changes one coordinate only and
    stops at the edge: from a position on the level, left gives
    [x = max(0, x - 101)], right gives [x = min(x + 101, 404)], up gives
    [y = max(0, y - 83)], down gives [y = min(y + 83, 415)]. *)
Theorem moves_on_level (pos : Vec.t) (sprite : string) :
  let l := Level.constructor in
  let this := Player.mk pos sprite l in
  on_level l pos ->
  Player.pos (Player.update "left" this) =
    Vec.mk (Rmax 0 (Vec.x pos - 101)) (Vec.y pos) /\
  Player.pos (Player.update "right" this) =
    Vec.mk (Rmin (Vec.x pos + 101) 404) (Vec.y pos) /\
  Player.pos (Player.update "up" this) =
    Vec.mk (Vec.x pos) (Rmax 0 (Vec.y pos - 83)) /\
  Player.pos (Player.update "down" this) =
    Vec.mk (Vec.x pos) (Rmin (Vec.y pos + 83) 415).
Proof.
  cbv zeta; destruct pos as [x y]; unfold on_level; cbn [Vec.x Vec.y].
  level_dims; push_IZR; intros [Hx Hy].
  repeat split;
    rewrite !update_shift_clamp;
    cbn [String.eqb Ascii.eqb Bool.eqb Player.pos Player.set_pos Player.level];
    unfold clamp, Entity.shiftPosition; cbn [Vec.x Vec.y];
    level_dims; push_IZR;
    unfold Rmin, Rmax;
    repeat match goal with
           | |- context [Rle_dec ?a ?b] =>
               lazymatch a with
               | context [Rle_dec _ _] => fail
               | _ => destruct (Rle_dec a b)
               end
           end;
    f_equal; lra.
Qed.

Lemma moves_on_level_witness :
  on_level Level.constructor (Vec.mk 0 415) /\
  Player.pos (Player.update "left"
                (Player.mk (Vec.mk 0 415) "images/char-boy.png" Level.constructor)) =
    Vec.mk (Rmax 0 (0 - 101)) 415.
Proof.
  assert (O : on_level Level.constructor (Vec.mk 0 415))
    by (unfold on_level; level_dims; push_IZR; lra).
  split; [exact O |].
  exact (proj1 (moves_on_level (Vec.mk 0 415) "images/char-boy.png" O)).
Defined.

(** X8.  An input that is none of the four direction names leaves a player
    that stands on its level exactly as it is, on any level. *)
Theorem other_input_ignored (input : string) (this : Player.t) :
  String.eqb input "left" = false -> String.eqb input "right" = false ->
  String.eqb input "up" = false -> String.eqb input "down" = false ->
  on_level (Player.level this) (Player.pos this) ->
  Player.update input this = this.
Proof.
  intros Hl Hr Hu Hd Hon.
  rewrite update_shift_clamp; cbv zeta; rewrite Hl, Hr, Hu, Hd.
  rewrite clamp_inside by exact Hon.
  destruct this; reflexivity.
Qed.

Lemma other_input_ignored_witness :
  let this := Player.constructor (Vec.mk 202 415) Level.constructor in
  on_level (Player.level this) (Player.pos this) /\
  Player.update "jump" this = this.
Proof.
  cbv zeta.
  assert (O : on_level
                (Player.level (Player.constructor (Vec.mk 202 415) Level.constructor))
                (Player.pos (Player.constructor (Vec.mk 202 415) Level.constructor)))
    by (cbn [Player.level Player.pos Player.constructor];
        unfold on_level; level_dims; push_IZR; lra).
  split; [exact O |].
  exact (other_input_ignored "jump" _ eq_refl eq_refl eq_refl eq_refl O).
Defined.

(** ** Entities: one frame *)

Lemma checkEnemyCreation_cases (dt : R) (g : JS.rng) (this : Entities.t) :
  Entities.checkEnemyCreation dt g this =
  if JS.Rltb (g 0%nat) (dt * 0.5) then
    (Entities.set_enemies
       (Entities.enemies this ++ [spawned (Entities.level this) g]) this,
     after_draws 3 g)
  else (this, after_draws 1 g).
Proof.
  unfold Entities.checkEnemyCreation, JS.random, spawned, after_draws.
  destruct (JS.Rltb (g 0%nat) (dt * 0.5)); [|reflexivity].
  destruct (JS.Rltb (g 2%nat) 0.5); reflexivity.
Qed.



(** X14.  [checkEnemyRemoval] removes nothing: it returns every collection
    as it received it, whatever the positions and velocities of the enemies. *)
Theorem checkEnemyRemoval_removes_nothing (this : Entities.t) :
  Entities.checkEnemyRemoval this = this /\
  (forall l es, Entities.sweep l es = es) /\
  (forall l e, Entities.removeEnemy l e = false).
Proof.
  split; [apply checkEnemyRemoval_id | split].
  - intros l es; apply sweep_id.
  - intros l e; apply removeEnemy_false.
Qed.

(** ** Collisions: geometry *)

Lemma abs_x_le_distance (a b : Vec.t) : Rabs (Vec.x a - Vec.x b) <= distance a b.
Proof.
  unfold distance; rewrite <- sqrt_Rsqr_abs.
  apply sqrt_le_1_alt; unfold Rsqr.
  pose proof (pow2_ge_0 (Vec.y a - Vec.y b)); nra.
Qed.

Lemma abs_y_le_distance (a b : Vec.t) : Rabs (Vec.y a - Vec.y b) <= distance a b.
Proof.
  unfold distance; rewrite <- sqrt_Rsqr_abs.
  apply sqrt_le_1_alt; unfold Rsqr.
  pose proof (pow2_ge_0 (Vec.x a - Vec.x b)); nra.
Qed.

(** X10.  Adding enemies never hides a collision, and the order of the
    enemies does not matter: between two collections with the same player
    and level, if every enemy of the first is in the second, a collision in
    the first is a collision in the second. *)
Theorem checkCollisions_monotone (this that : Entities.t) :
  Entities.player that = Entities.player this ->
  Entities.level that = Entities.level this ->
  incl (Entities.enemies this) (Entities.enemies that) ->
  Entities.checkCollisions this = true ->
  Entities.checkCollisions that = true.
Proof.
  unfold Entities.checkCollisions; intros -> -> Hincl Hc.
  apply collides_iff in Hc; destruct Hc as [enemy [Hin Hd]].
  apply collides_iff; exists enemy; split; [apply Hincl, Hin | exact Hd].
Qed.

Lemma checkCollisions_monotone_witness :
  let more :=
    Entities.set_enemies (Entities.enemies apart ++ Entities.enemies touching)
                         touching in
  Entities.player more = Entities.player touching /\
  Entities.level more = Entities.level touching /\
  incl (Entities.enemies touching) (Entities.enemies more) /\
  Entities.checkCollisions touching = true /\
  Entities.checkCollisions more = true.
Proof.
  cbv zeta.
  set (more := Entities.set_enemies
                 (Entities.enemies apart ++ Entities.enemies touching) touching).
  assert (P : Entities.player more = Entities.player touching) by reflexivity.
  assert (L : Entities.level more = Entities.level touching) by reflexivity.
  assert (I : incl (Entities.enemies touching) (Entities.enemies more))
    by (apply incl_appr, incl_refl).
  assert (C : Entities.checkCollisions touching = true).
  { apply collides_iff; eexists; split; [left; reflexivity|].
    cbn [touching Entities.player Entities.level Player.constructor Player.pos
         Enemy.constructor Enemy.pos].
    rewrite distance_self.
    change (Level.tileWidth Level.constructor) with 101%Z; lra. }
  split; [exact P | split; [exact L | split; [exact I | split; [exact C |]]]].
  exact (checkCollisions_monotone touching more P L I C).
Defined.

(** X11.  A collision needs an enemy that is closer than [tileWidth * 0.6]
    to the player along both axes; when every enemy is at least that far
    away horizontally or vertically there is no collision. *)
Theorem checkCollisions_axes (this : Entities.t) :
  let threshold := IZR (Level.tileWidth (Entities.level this)) * 0.6 in
  let p := Player.pos (Entities.player this) in
  (Entities.checkCollisions this = true ->
   exists enemy, In enemy (Entities.enemies this) /\
                 Rabs (Vec.x p - Vec.x (Enemy.pos enemy)) < threshold /\
                 Rabs (Vec.y p - Vec.y (Enemy.pos enemy)) < threshold) /\
  ((forall enemy, In enemy (Entities.enemies this) ->
                  threshold <= Rabs (Vec.x p - Vec.x (Enemy.pos enemy)) \/
                  threshold <= Rabs (Vec.y p - Vec.y (Enemy.pos enemy))) ->
   Entities.checkCollisions this = false).
Proof.
  cbv zeta; unfold Entities.checkCollisions.
  assert (A : Entities.collides (Entities.level this)
                (Player.pos (Entities.player this)) (Entities.enemies this) = true ->
              exists enemy, In enemy (Entities.enemies this) /\
                Rabs (Vec.x (Player.pos (Entities.player this))
                      - Vec.x (Enemy.pos enemy))
                < IZR (Level.tileWidth (Entities.level this)) * 0.6 /\
                Rabs (Vec.y (Player.pos (Entities.player this))
                      - Vec.y (Enemy.pos enemy))
                < IZR (Level.tileWidth (Entities.level this)) * 0.6).
  { intros Hc; apply collides_iff in Hc; destruct Hc as [enemy [Hin Hd]].
    exists enemy; split; [exact Hin|].
    pose proof (abs_x_le_distance (Player.pos (Entities.player this))
                                  (Enemy.pos enemy)).
    pose proof (abs_y_le_distance (Player.pos (Entities.player this))
                                  (Enemy.pos enemy)).
    split; lra. }
  split; [exact A|].
  intros Hfar; apply not_true_is_false; intros Hc.
  destruct (A Hc) as [enemy [Hin [Hx Hy]]].
  destruct (Hfar enemy Hin); lra.
Qed.

Lemma checkCollisions_axes_witness :
  (forall enemy, In enemy (Entities.enemies apart) ->
     IZR (Level.tileWidth (Entities.level apart)) * 0.6
     <= Rabs (Vec.x (Player.pos (Entities.player apart)) - Vec.x (Enemy.pos enemy))
     \/
     IZR (Level.tileWidth (Entities.level apart)) * 0.6
     <= Rabs (Vec.y (Player.pos (Entities.player apart)) - Vec.y (Enemy.pos enemy)))
  /\ Entities.checkCollisions apart = false.
Proof.
  assert (F : forall enemy, In enemy (Entities.enemies apart) ->
     IZR (Level.tileWidth (Entities.level apart)) * 0.6
     <= Rabs (Vec.x (Player.pos (Entities.player apart)) - Vec.x (Enemy.pos enemy))
     \/
     IZR (Level.tileWidth (Entities.level apart)) * 0.6
     <= Rabs (Vec.y (Player.pos (Entities.player apart)) - Vec.y (Enemy.pos enemy))).
  { intros enemy [<- | []]; left.
    change (Level.tileWidth (Entities.level apart)) with 101%Z.
    cbn [apart Entities.player Player.constructor Player.pos
         Enemy.constructor Enemy.pos Vec.x].
    rewrite Rabs_right; lra. }
  split; [exact F | exact (proj2 (checkCollisions_axes apart) F)].
Defined.

Lemma Entities_update_cases (dt : R) (g : JS.rng) (this : Entities.t) :
  let new :=
    if JS.Rltb (g 0%nat) (dt * 0.5) then [spawned (Entities.level this) g]
    else [] in
  let after :=
    Entities.set_enemies
      (map (Enemy.update dt) (Entities.enemies this ++ new)) this in
  fst (Entities.update dt g this) =
    (negb (Entities.checkCollisions after), after).
Proof.
  cbv zeta; unfold Entities.update.
  rewrite checkEnemyCreation_cases.
  destruct (JS.Rltb (g 0%nat) (dt * 0.5));
    rewrite checkEnemyRemoval_id; cbn [fst snd Entities.set_enemies
      Entities.player Entities.level Entities.enemies];
    rewrite ?app_nil_r; reflexivity.
Qed.

Lemma spawned_out_of_reach (dt : R) (g : JS.rng) (p : Vec.t) :
  on_level Level.constructor p -> 0 <= dt <= 0.1 ->
  91 <= distance p (Enemy.pos (Enemy.update dt (spawned Level.constructor g))).
Proof.
  unfold on_level; level_dims; push_IZR; intros [Hx _] Hdt.
  eapply Rle_trans; [|apply abs_x_le_distance].
  unfold spawned; level_dims.
  destruct (JS.Rltb (g 2%nat) 0.5);
    unfold Enemy.update, Entity.move;
    cbn [Enemy.pos Enemy.movement Enemy.constructor Vec.x Vec.y];
    push_IZR; unfold Rabs; destruct (Rcase_abs _); lra.
Qed.

(** X13.  On the constructed level, with the player on the level and a time
    step in [0, 0.1], the enemy created in a frame cannot be the one that
    collides in that frame: it is at least 91 pixels away after its first
    move.  So when [Entities.update] returns false, an enemy that was there
    before the frame has moved within [tileWidth * 0.6] of the player. *)
Theorem collision_needs_old_enemy (dt : R) (g : JS.rng) (this : Entities.t) :
  Entities.level this = Level.constructor ->
  on_level Level.constructor (Player.pos (Entities.player this)) ->
  0 <= dt <= 0.1 ->
  fst (fst (Entities.update dt g this)) = false ->
  exists enemy, In enemy (Entities.enemies this) /\
    distance (Player.pos (Entities.player this))
             (Enemy.pos (Enemy.update dt enemy)) < 101 * 0.6.
Proof.
  intros Hl Hon Hdt.
  rewrite Entities_update_cases; cbv zeta; cbn [fst].
  intros Hfalse; apply negb_false_iff in Hfalse.
  unfold Entities.checkCollisions in Hfalse; apply collides_iff in Hfalse.
  cbn [Entities.set_enemies Entities.player Entities.level Entities.enemies]
    in Hfalse.
  destruct Hfalse as [moved [Hin Hd]].
  rewrite Hl in Hd, Hin; change (Level.tileWidth Level.constructor) with 101%Z in Hd.
  apply in_map_iff in Hin; destruct Hin as [enemy [<- Hin]].
  apply in_app_or in Hin; destruct Hin as [Hold | Hnew].
  - exists enemy; split; [exact Hold | exact Hd].
  - exfalso.
    assert (enemy = spawned Level.constructor g) as ->.
    { destruct (JS.Rltb (g 0%nat) (dt * 0.5)); [|destruct Hnew].
      destruct Hnew as [<- | []]; reflexivity. }
    pose proof (spawned_out_of_reach dt g _ Hon Hdt); lra.
Qed.

Lemma collision_needs_old_enemy_witness :
  let this := Engine.entities approaching in
  Entities.level this = Level.constructor /\
  on_level Level.constructor (Player.pos (Entities.player this)) /\
  0 <= 0.1 <= 0.1 /\
  fst (fst (Entities.update 0.1 halves this)) = false /\
  exists enemy, In enemy (Entities.enemies this) /\
    distance (Player.pos (Entities.player this))
             (Enemy.pos (Enemy.update 0.1 enemy)) < 101 * 0.6.
Proof.
  cbv zeta; rewrite approaching_entities.
  cbn [Entities.level Entities.player Entities.enemies Player.constructor
       Player.pos].
  assert (L : Level.constructor = Level.constructor) by reflexivity.
  assert (O : on_level Level.constructor (Vec.mk 202 249))
    by (unfold on_level; level_dims; push_IZR; lra).
  assert (D : 0 <= 0.1 <= 0.1) by lra.
  set (this := Entities.mk [Enemy.constructor (Vec.mk 192 249) (Vec.mk 100 0)]
                 (Player.constructor (Vec.mk 202 249) Level.constructor)
                 Level.constructor).
  assert (F : fst (fst (Entities.update 0.1 halves this)) = false).
  { rewrite Entities_update_no_spawn by (unfold halves; lra).
    cbn [fst snd]; apply negb_false_iff.
    apply collides_iff; eexists; split; [left; reflexivity|].
    cbn [this Entities.set_enemies Entities.player Entities.level
         Player.constructor Player.pos].
    rewrite met_position; cbn [Enemy.constructor Enemy.pos].
    rewrite distance_self.
    change (Level.tileWidth Level.constructor) with 101%Z; lra. }
  split; [exact L | split; [exact O | split; [exact D | split; [exact F |]]]].
  exact (collision_needs_old_enemy 0.1 halves this L O D F).
Defined.

(** X15.  On the constructed level the rows are lanes: with the player on a
    tile and every enemy on one of the rows 1 to 3, a collision is always
    with an enemy of the player's own row, less than [tileWidth * 0.6] away
    in [x]; a player on the water row or on a grass row does not collide. *)
Theorem lanes_collide_in_row (this : Entities.t) :
  let l := Level.constructor in
  let p := Player.pos (Entities.player this) in
  Entities.level this = l ->
  on_tile l p ->
  (forall enemy, In enemy (Entities.enemies this) -> in_lane l enemy) ->
  (Entities.checkCollisions this = true ->
   exists enemy, In enemy (Entities.enemies this) /\
                 Vec.y (Enemy.pos enemy) = Vec.y p /\
                 Rabs (Vec.x p - Vec.x (Enemy.pos enemy)) < 101 * 0.6) /\
  (Vec.y p = 0 \/ 332 <= Vec.y p -> Entities.checkCollisions this = false).
Proof.
  cbv zeta; intros Hl [col [row [Hc [Hr [Hx Hy]]]]] Hlane.
  level_dims.
  assert (A : Entities.checkCollisions this = true ->
              exists enemy, In enemy (Entities.enemies this) /\
                Vec.y (Enemy.pos enemy) = Vec.y (Player.pos (Entities.player this)) /\
                Rabs (Vec.x (Player.pos (Entities.player this))
                      - Vec.x (Enemy.pos enemy)) < 101 * 0.6).
  { unfold Entities.checkCollisions; rewrite Hl.
    intros Hcol; apply collides_iff in Hcol.
    change (Level.tileWidth Level.constructor) with 101%Z in Hcol.
    destruct Hcol as [enemy [Hin Hd]].
    exists enemy; split; [exact Hin|].
    pose proof (abs_x_le_distance (Player.pos (Entities.player this))
                                  (Enemy.pos enemy)) as Hax.
    pose proof (abs_y_le_distance (Player.pos (Entities.player this))
                                  (Enemy.pos enemy)) as Hay.
    split; [|lra].
    destruct (Hlane enemy Hin) as [[erow [Her Hey]] _].
    level_dims; rewrite Hy, Hey in *.
    destruct (Z.eq_dec erow row) as [-> | Hne]; [reflexivity | exfalso].
    rewrite !mult_IZR in Hay.
    assert (IZR row - IZR erow <= -1 \/ 1 <= IZR row - IZR erow) as [Hlt | Hgt].
    { destruct (Z_lt_le_dec row erow) as [H | H].
      - left; assert (row + 1 <= erow)%Z as H' by lia.
        apply IZR_le in H'; rewrite plus_IZR in H'; lra.
      - right; assert (erow + 1 <= row)%Z as H' by lia.
        apply IZR_le in H'; rewrite plus_IZR in H'; lra. }
    - unfold Rabs in Hay; destruct (Rcase_abs _) in Hay; lra.
    - unfold Rabs in Hay; destruct (Rcase_abs _) in Hay; lra. }
  split; [exact A|].
  intros Hsafe; apply not_true_is_false; intros Hcol.
  destruct (A Hcol) as [enemy [Hin [Hrow _]]].
  destruct (Hlane enemy Hin) as [[erow [Her Hey]] _].
  level_dims; rewrite Hey in Hrow.
  assert (1 <= IZR erow <= 3)
    by (split; [apply (IZR_le 1) | apply (IZR_le _ 3)]; lia).
  rewrite mult_IZR in Hrow; lra.
Qed.

Lemma lanes_collide_in_row_witness :
  Entities.level apart = Level.constructor /\
  on_tile Level.constructor (Player.pos (Entities.player apart)) /\
  (forall enemy, In enemy (Entities.enemies apart) ->
                 in_lane Level.constructor enemy) /\
  332 <= Vec.y (Player.pos (Entities.player apart)) /\
  Entities.checkCollisions apart = false.
Proof.
  assert (L : Entities.level apart = Level.constructor) by reflexivity.
  assert (T : on_tile Level.constructor (Player.pos (Entities.player apart))).
  { exists 2%Z, 5%Z; level_dims.
    cbn [apart Entities.player Player.constructor Player.pos Vec.x Vec.y].
    repeat split; try lia; push_IZR; lra. }
  assert (E : forall enemy, In enemy (Entities.enemies apart) ->
                            in_lane Level.constructor enemy).
  { intros enemy [<- | []]; unfold in_lane; level_dims.
    cbn [Enemy.constructor Enemy.pos Enemy.movement Vec.x Vec.y].
    split; [exists 1%Z; split; [lia | push_IZR; lra] | split; [reflexivity | left; reflexivity]]. }
  assert (S : 332 <= Vec.y (Player.pos (Entities.player apart)))
    by (cbn [apart Entities.player Player.constructor Player.pos Vec.y]; lra).
  split; [exact L | split; [exact T | split; [exact E | split; [exact S |]]]].
  exact (proj2 (lanes_collide_in_row apart L T E) (or_intror S)).
Defined.

(** ** InputHandler *)

(** X16.  The ['keyup'] listener maps the key codes 37, 38, 39, 40 to one
    [Player.update] with left, up, right, down: the player ends where that
    update puts it.  Any other key code changes nothing.  No key touches the
    enemies or the player's sprite, and the handler's own state plays no
    part. *)
Theorem keyup_keys (that : InputHandler.t) (keyCode : Z) (entities : Entities.t) :
  let moved input :=
    Player.pos (Player.update input (Entities.player entities)) in
  let result := InputHandler.keyup that keyCode entities in
  (keyCode = 37%Z ->
   Player.pos (Entities.player result) = moved "left"%string) /\
  (keyCode = 38%Z ->
   Player.pos (Entities.player result) = moved "up"%string) /\
  (keyCode = 39%Z ->
   Player.pos (Entities.player result) = moved "right"%string) /\
  (keyCode = 40%Z ->
   Player.pos (Entities.player result) = moved "down"%string) /\
  ((keyCode < 37 \/ 40 < keyCode)%Z -> result = entities) /\
  Entities.enemies result = Entities.enemies entities /\
  Player.sprite (Entities.player result) =
    Player.sprite (Entities.player entities) /\
  result = InputHandler.keyup InputHandler.constructor keyCode entities.
Proof.
  cbv zeta; unfold InputHandler.keyup, InputHandler.allowedKeys.
  cbn [InputHandler.lookup].
  split; [intros ->; reflexivity|].
  split; [intros ->; reflexivity|].
  split; [intros ->; reflexivity|].
  split; [intros ->; reflexivity|].
  split; [|split; [|split; [|reflexivity]]].
  - intros Hout.
    repeat match goal with
           | |- context [(?a =? keyCode)%Z] =>
               destruct (Z.eqb_spec a keyCode); [lia|]
           end.
    reflexivity.
  - repeat match goal with
           | |- context [(?a =? keyCode)%Z] => destruct (a =? keyCode)%Z
           end; reflexivity.
  - repeat match goal with
           | |- context [(?a =? keyCode)%Z] => destruct (a =? keyCode)%Z
           end; reflexivity.
Qed.

Lemma keyup_keys_witness :
  let entities := Entities.constructor Level.constructor in
  (13 < 37 \/ 40 < 13)%Z /\
  InputHandler.keyup InputHandler.constructor 13 entities = entities.
Proof.
  cbv zeta.
  assert (H : (13 < 37 \/ 40 < 13)%Z) by (left; lia).
  split; [exact H |].
  exact (proj1 (proj2 (proj2 (proj2 (proj2
           (keyup_keys InputHandler.constructor 13
                       (Entities.constructor Level.constructor)))))) H).
Defined.

(** ** Engine: one update *)

Lemma Engine_update_cases (dt : R) (g : JS.rng) (this : Engine.t) :
  Engine.update dt g this =
  let timed :=
    Engine.set_timeSinceReset (Engine.timeSinceReset this + dt) this in
  if Engine.states_eqb (Engine.state this) Engine.running then
    let enabled :=
      if JS.Rltb 2 (Engine.timeSinceReset this + dt)
      then Engine.set_inputsEnabled (JS.Bool true) timed else timed in
    (Engine.set_entities
       (snd (fst (Entities.update dt g (Engine.entities this)))) enabled,
     snd (Entities.update dt g (Engine.entities this)))
  else (timed, g).
Proof.
  cbv zeta; unfold Engine.update, Engine.playerInputAllowed.
  cbn [Engine.state Engine.set_timeSinceReset Engine.timeSinceReset].
  destruct (Engine.states_eqb (Engine.state this) Engine.running);
    cbn [negb]; [|reflexivity].
  destruct (JS.Rltb 2 (Engine.timeSinceReset this + dt));
    cbn [Engine.entities Engine.set_inputsEnabled Engine.set_timeSinceReset];
    destruct (Entities.update dt g (Engine.entities this))
      as [[entityMessages updated] g1];
    reflexivity.
Qed.

(** X17.  [Engine.update] never changes the state, the score, the level,
    the clock value [lastTime], the button highlight or the player, and it
    moves [timeSinceReset] in the direction of [dt] (not at all for
    [dt = 0]).  Outside the running state it touches neither the entities
    nor the input handler and uses no random draw.  In the running state it
    stores the entities [Entities.update] returns, and [inputsEnabled] is
    true afterwards when the new [timeSinceReset] exceeds 2 and as it was
    before otherwise. *)
Theorem Engine_update_effect (dt : R) (g : JS.rng) (this : Engine.t) :
  let after := fst (Engine.update dt g this) in
  Engine.state after = Engine.state this /\
  Engine.score after = Engine.score this /\
  Engine.level after = Engine.level this /\
  Engine.lastTime after = Engine.lastTime this /\
  Engine.buttonHighlight after = Engine.buttonHighlight this /\
  Entities.player (Engine.entities after) =
    Entities.player (Engine.entities this) /\
  (0 <= dt -> Engine.timeSinceReset this <= Engine.timeSinceReset after) /\
  (dt <= 0 -> Engine.timeSinceReset after <= Engine.timeSinceReset this) /\
  (Engine.state this <> Engine.running ->
   Engine.entities after = Engine.entities this /\
   Engine.inputHandler after = Engine.inputHandler this /\
   snd (Engine.update dt g this) = g) /\
  (Engine.state this = Engine.running ->
   Engine.entities after =
     snd (fst (Entities.update dt g (Engine.entities this))) /\
   (2 < Engine.timeSinceReset after ->
    InputHandler.inputsEnabled (Engine.inputHandler after) = JS.Bool true) /\
   (Engine.timeSinceReset after <= 2 ->
    Engine.inputHandler after = Engine.inputHandler this)).
Proof.
  cbv zeta; rewrite Engine_update_cases; cbv zeta.
  destruct (Engine.states_eqb (Engine.state this) Engine.running) eqn:Hrun.
  - assert (Engine.state this = Engine.running) as Hr
      by (destruct (Engine.state this); (discriminate || reflexivity)).
    cbn [fst].
    destruct (JS.Rltb 2 (Engine.timeSinceReset this + dt)) eqn:E;
      [apply Rltb_true_iff in E | apply Rltb_false_iff in E];
      cbn [Engine.set_entities Engine.set_inputsEnabled Engine.set_timeSinceReset
           Engine.timeSinceReset Engine.state Engine.score Engine.level
           Engine.lastTime Engine.entities Engine.inputHandler
           Engine.buttonHighlight InputHandler.inputsEnabled];
      rewrite Entities_update_cases; cbv zeta;
      cbn [snd Entities.set_enemies Entities.player];
      repeat split; try reflexivity; try (intros; lra); try congruence.
  - cbn [fst snd Engine.set_timeSinceReset Engine.timeSinceReset Engine.state
         Engine.score Engine.level Engine.lastTime Engine.entities
         Engine.inputHandler Engine.buttonHighlight].
    repeat split; try reflexivity; try (intros; lra);
      match goal with
      | Hr : Engine.state this = Engine.running |- _ =>
          rewrite Hr in Hrun; discriminate Hrun
      end.
Qed.

Lemma Engine_update_effect_witness :
  0 <= 0.1 /\
  Engine.timeSinceReset approaching <=
    Engine.timeSinceReset (fst (Engine.update 0.1 halves approaching)) /\
  Engine.state (Engine.constructor Level.constructor) <> Engine.running /\
  snd (Engine.update 0.1 halves (Engine.constructor Level.constructor)) = halves /\
  Engine.state approaching = Engine.running /\
  Engine.entities (fst (Engine.update 0.1 halves approaching)) =
    snd (fst (Entities.update 0.1 halves (Engine.entities approaching))).
Proof.
  assert (D : 0 <= 0.1) by lra.
  assert (N : Engine.state (Engine.constructor Level.constructor)
              <> Engine.running) by discriminate.
  pose proof approaching_running as Hr.
  pose proof (Engine_update_effect 0.1 halves
                (Engine.constructor Level.constructor))
    as [_ [_ [_ [_ [_ [_ [_ [_ [Hidle _]]]]]]]]].
  pose proof (Engine_update_effect 0.1 halves approaching)
    as [_ [_ [_ [_ [_ [_ [Hup [_ [_ Hbusy]]]]]]]]].
  split; [exact D | split; [exact (Hup D) | split; [exact N |]]].
  split; [exact (proj2 (proj2 (Hidle N))) | split; [exact Hr |]].
  exact (proj1 (Hbusy Hr)).
Defined.

(** ** Engine: blinking, the button, restarting *)

Lemma floor_spec (r : R) : IZR (JS.floor r) <= r < IZR (JS.floor r) + 1.
Proof.
  unfold JS.floor; destruct (base_Int_part r); lra.
Qed.

Lemma rem_two_nonneg (a : R) :
  0 <= a -> JS.rem a 2 = a - 2 * IZR (JS.floor (a / 2)).
Proof.
  intros H; unfold JS.rem, JS.trunc, JS.floor.
  destruct (Rle_dec 0 (a / 2)) as [_ | Hneg]; [reflexivity | lra].
Qed.

(** X18.  The blink of the grace period: in a running game with
    [timeSinceReset = t] between 0 and 2, the player is visible exactly
    during the first quarter of every half second, that is when
    [k / 2 <= t < k / 2 + 1 / 4] for some integer [k].  Outside the running
    state, and once [t] exceeds 2, the player is always visible. *)
Theorem playerVisible_blink (this : Engine.t) :
  let t := Engine.timeSinceReset this in
  (Engine.state this <> Engine.running -> Engine.playerVisible this = true) /\
  (2 < t -> Engine.playerVisible this = true) /\
  (Engine.state this = Engine.running -> 0 <= t <= 2 ->
   (Engine.playerVisible this = true <->
    exists k : Z, IZR k / 2 <= t < IZR k / 2 + 1 / 4)).
Proof.
  cbv zeta; unfold Engine.playerVisible, Engine.playerInputAllowed.
  split; [|split].
  - intros Hn; destruct (Engine.state this); try reflexivity; congruence.
  - intros Ht; rewrite (Rltb_true _ _ Ht); apply orb_true_r.
  - intros -> Ht; cbn [Engine.states_eqb negb orb].
    rewrite (Rltb_false 2 _) by lra; rewrite orb_false_r.
    rewrite rem_two_nonneg by lra.
    set (t := Engine.timeSinceReset this) in *.
    set (k := JS.floor (t * 4 / 2)).
    pose proof (floor_spec (t * 4 / 2)) as Hk; fold k in Hk.
    rewrite Z.eqb_eq; split.
    + intros H0; exists k.
      pose proof (floor_spec (t * 4 - 2 * IZR k)) as Hf.
      rewrite H0 in Hf; lra.
    + intros [k' Hk'].
      assert (k = k') as ->
        by (unfold k; apply floor_between; lra).
      apply floor_between; lra.
Qed.

Lemma playerVisible_blink_witness :
  Engine.state approaching = Engine.running /\
  0 <= Engine.timeSinceReset approaching <= 2 /\
  (Engine.playerVisible approaching = true <->
   exists k : Z, IZR k / 2 <= Engine.timeSinceReset approaching
                 < IZR k / 2 + 1 / 4).
Proof.
  pose proof approaching_running as Hr.
  assert (T : 0 <= Engine.timeSinceReset approaching <= 2)
    by (change (Engine.timeSinceReset approaching) with 0; lra).
  split; [exact Hr | split; [exact T |]].
  exact (proj2 (proj2 (playerVisible_blink approaching)) Hr T).
Defined.

Lemma Rleb_true_iff (a b : R) : JS.Rleb a b = true <-> a <= b.
Proof.
  unfold JS.Rleb; destruct (Rle_dec a b); split; auto; discriminate.
Qed.

Lemma over_button_iff (x y : R) (this : Engine.t) :
  Engine.over_button x y this = true <->
  (IZR (Level.widthPixels (Engine.level this)) - 200) / 2 <= x
    < (IZR (Level.widthPixels (Engine.level this)) + 200) / 2 /\
  180 <= y < 230.
Proof.
  unfold Engine.over_button.
  rewrite !andb_true_iff, !Rleb_true_iff, !Rltb_true_iff.
  unfold Engine.buttonBottom, Engine.buttonRight, Engine.buttonTop,
    Engine.buttonLeft, Engine.canvas_width, Engine.INNER_MESSAGE_PADDING,
    Engine.MESSAGE_PADDING, Engine.MESSAGE_BORDER, Engine.CANVAS_Y_OFFSET,
    Engine.BUTTON_Y_OFFSET, Engine.BUTTON_WIDTH, Engine.BUTTON_HEIGHT.
  lra.
Qed.

(** X19.  The button of the message box is 200 pixels wide, centred on the
    canvas, and spans [y] from 180 to 230.  Both mouse handlers use the same
    half-open test; [handleMouseMove] sets [buttonHighlight] to its outcome
    and changes nothing else. *)
Theorem button_geometry (x y : R) (this : Engine.t) :
  let w := IZR (Level.widthPixels (Engine.level this)) in
  (Engine.over_button x y this = true <->
   (w - 200) / 2 <= x < (w + 200) / 2 /\ 180 <= y < 230) /\
  Engine.buttonLeft this + Engine.buttonRight this = w /\
  Engine.handleMouseMove x y this =
    Engine.set_buttonHighlight (Engine.over_button x y this) this.
Proof.
  cbv zeta; split; [|split].
  - apply over_button_iff.
  - unfold Engine.buttonRight, Engine.buttonLeft, Engine.canvas_width,
      Engine.BUTTON_WIDTH; lra.
  - unfold Engine.handleMouseMove.
    destruct (Engine.over_button x y this); reflexivity.
Qed.

Lemma runLoopIteration_fields (now : Z) (g : JS.rng) (this : Engine.t) :
  let after := fst (Engine.runLoopIteration now g this) in
  Engine.state after = Engine.state this /\
  Engine.score after = Engine.score this /\
  Engine.level after = Engine.level this /\
  Engine.lastTime after = now /\
  Engine.timeSinceReset after =
    Engine.timeSinceReset this + Engine.frame_dt now this /\
  Engine.entities after =
    (if Engine.states_eqb (Engine.state this) Engine.running
     then snd (fst (Entities.update (Engine.frame_dt now this) g
                                    (Engine.entities this)))
     else Engine.entities this).
Proof.
  cbv zeta; unfold Engine.runLoopIteration, Engine.frame_dt, Engine.updateTimer.
  cbn [fst]; rewrite Engine_update_cases; cbv zeta.
  cbn [Engine.state Engine.set_lastTime Engine.timeSinceReset Engine.entities].
  destruct (Engine.states_eqb (Engine.state this) Engine.running);
    [destruct (JS.Rltb 2 _)|]; repeat split.
Qed.

(** X20.  [handleClick] acts only on the button and only after a game over
    or a won level.  There it starts a fresh level: the score is 0 after a
    game over and kept after a won level, the state is running again, the
    player stands on the start of the fresh level, and [timeSinceReset]
    holds the first time step alone, so the grace period starts over. *)
Theorem handleClick_restarts (x y : R) (fresh : Level.t) (now later : Z)
        (g : JS.rng) (this : Engine.t) :
  let after := fst (Engine.handleClick x y fresh now later g this) in
  (Engine.over_button x y this = false ->
   Engine.handleClick x y fresh now later g this = (this, g)) /\
  (Engine.state this = Engine.running \/ Engine.state this = Engine.initialising ->
   Engine.handleClick x y fresh now later g this = (this, g)) /\
  (Engine.over_button x y this = true ->
   Engine.state this = Engine.gameOver \/ Engine.state this = Engine.levelWin ->
   Engine.state after = Engine.running /\
   Engine.score after =
     (if Engine.states_eqb (Engine.state this) Engine.gameOver
      then 0%Z else Engine.score this) /\
   Engine.level after = fresh /\
   Entities.player (Engine.entities after) =
     Player.constructor (Level.start fresh) fresh /\
   Engine.lastTime after = later /\
   Engine.timeSinceReset after = Rmin 0.1 (IZR (later - now) / 1000) /\
   Engine.playerInputAllowed after = false).
Proof.
  cbv zeta; unfold Engine.handleClick; split; [|split].
  - intros ->; reflexivity.
  - intros [-> | ->]; cbn [Engine.states_eqb];
      destruct (Engine.over_button x y this); reflexivity.
  - intros -> Hend; unfold Engine.run.
    assert (E : forall full,
              let begun := Engine.initialiseLevel now (Engine.reset full fresh this) in
              let after := fst (Engine.runLoopIteration later g begun) in
              Engine.state after = Engine.running /\
              Engine.score after = (if full then 0%Z else Engine.score this) /\
              Engine.level after = fresh /\
              Entities.player (Engine.entities after) =
                Player.constructor (Level.start fresh) fresh /\
              Engine.lastTime after = later /\
              Engine.timeSinceReset after = Rmin 0.1 (IZR (later - now) / 1000) /\
              Engine.playerInputAllowed after = false).
    { intros full; cbv zeta.
      destruct (runLoopIteration_fields later g
                  (Engine.initialiseLevel now (Engine.reset full fresh this)))
        as [Hs [Hsc [Hl [Hlt [Ht He]]]]].
      assert (Hdt : Engine.timeSinceReset
                      (fst (Engine.runLoopIteration later g
                         (Engine.initialiseLevel now (Engine.reset full fresh this))))
                    = Rmin 0.1 (IZR (later - now) / 1000)).
      { rewrite Ht; unfold Engine.frame_dt, Engine.updateTimer.
        cbn [fst Engine.timeSinceReset Engine.lastTime Engine.initialiseLevel
             Engine.set_lastTime Engine.set_state Engine.reset].
        apply Rplus_0_l. }
      split; [rewrite Hs; reflexivity|].
      split; [rewrite Hsc; reflexivity|].
      split; [rewrite Hl; reflexivity|].
      split.
      { rewrite He.
        cbn [Engine.state Engine.initialiseLevel Engine.set_lastTime
             Engine.set_state Engine.states_eqb Engine.entities Engine.reset].
        rewrite Entities_update_cases; reflexivity. }
      split; [exact Hlt|].
      split; [exact Hdt|].
      unfold Engine.playerInputAllowed; rewrite Hdt.
      apply Rltb_false.
      eapply Rle_trans; [apply Rmin_l | lra]. }
    destruct Hend as [-> | ->]; cbn [Engine.states_eqb]; apply E.
Qed.

Lemma handleClick_restarts_witness :
  let over := Engine.set_score 7 (Engine.set_state Engine.gameOver approaching) in
  Engine.over_button 200 200 over = true /\
  (Engine.state over = Engine.gameOver \/ Engine.state over = Engine.levelWin) /\
  Engine.score
    (fst (Engine.handleClick 200 200 Level.constructor 5000 5016 halves over)) = 0%Z /\
  Engine.over_button 10 10 over = false /\
  Engine.handleClick 10 10 Level.constructor 5000 5016 halves over = (over, halves).
Proof.
  cbv zeta.
  set (over := Engine.set_score 7 (Engine.set_state Engine.gameOver approaching)).
  assert (L : Engine.level over = Level.constructor) by reflexivity.
  assert (B : Engine.over_button 200 200 over = true).
  { apply over_button_iff.
    rewrite L; level_dims; push_IZR; lra. }
  assert (S : Engine.state over = Engine.gameOver \/
              Engine.state over = Engine.levelWin) by (left; reflexivity).
  assert (O : Engine.over_button 10 10 over = false).
  { apply not_true_is_false; intros H.
    apply over_button_iff in H.
    rewrite L in H; level_dims; push_IZR; lra. }
  pose proof (handleClick_restarts 200 200 Level.constructor 5000 5016 halves over)
    as [_ [_ Hin]].
  pose proof (handleClick_restarts 10 10 Level.constructor 5000 5016 halves over)
    as [Hout _].
  split; [exact B | split; [exact S | split; [| split; [exact O | exact (Hout O)]]]].
  exact (proj1 (proj2 (Hin B S))).
Defined.

(** ** The game as a sequence of events *)

Lemma in_lane_update (l : Level.t) (dt : R) (e : Enemy.t) :
  in_lane l e -> in_lane l (Enemy.update dt e).
Proof.
  unfold in_lane, Enemy.update, Entity.move.
  cbn [Enemy.pos Enemy.movement Vec.x Vec.y].
  intros [[row [Hrow Hy]] [Hvy Hvx]].
  split; [|split; assumption].
  exists row; split; [exact Hrow|].
  rewrite Hvy, Hy; ring.
Qed.

Lemma spawned_in_lane (l : Level.t) (g : JS.rng) :
  JS.unit_draws g -> in_lane l (spawned l g).
Proof.
  intros Hg; unfold in_lane, spawned.
  assert (Hrow : (1 <= JS.floor (g 1%nat * 3 + 1) <= 3)%Z)
    by (destruct (floor_row (g 1%nat) (Hg 1%nat))
          as [[-> _] | [[-> _] | [-> _]]]; lia).
  destruct (JS.Rltb (g 2%nat) 0.5);
    cbn [Enemy.constructor Enemy.pos Enemy.movement Vec.x Vec.y];
    (split; [eexists; split; [exact Hrow | reflexivity]
            | split; [reflexivity | auto]]).
Qed.

Lemma update_on_tile (input : string) (p : Player.t) :
  Player.level p = Level.constructor ->
  on_tile Level.constructor (Player.pos p) ->
  Player.level (Player.update input p) = Level.constructor /\
  on_tile Level.constructor (Player.pos (Player.update input p)).
Proof.
  destruct p as [[x y] sprite l]; cbn [Player.level Player.pos].
  intros -> [col [row [Hc [Hr [Hx Hy]]]]].
  level_dims; subst x y.
  rewrite update_tile by lia.
  destruct (next_tile_bounds input col row) as [Hc' Hr']; [lia | lia |].
  split; [reflexivity|].
  exists (fst (next_tile input col row)), (snd (next_tile input col row)).
  level_dims; cbn [Player.pos Vec.x Vec.y]; repeat split; lia.
Qed.

Lemma handleClick_idle (x y : R) (fresh : Level.t) (now later : Z) (g : JS.rng)
      (this : Engine.t) :
  Engine.state this = Engine.running ->
  Engine.handleClick x y fresh now later g this = (this, g).
Proof.
  intros Hr; unfold Engine.handleClick; rewrite Hr; cbn [Engine.states_eqb].
  destruct (Engine.over_button x y this); reflexivity.
Qed.

Lemma keyup_player (that : InputHandler.t) (keyCode : Z) (entities : Entities.t) :
  InputHandler.keyup that keyCode entities = entities \/
  exists input,
    InputHandler.keyup that keyCode entities =
    Entities.set_player (Player.update input (Entities.player entities)) entities.
Proof.
  unfold InputHandler.keyup.
  destruct (InputHandler.lookup InputHandler.allowedKeys keyCode);
    cbn [JS.ToBoolean]; auto.
  - destruct b; auto.
  - destruct (Req_dec_T r 0); auto.
  - destruct (negb (String.eqb s EmptyString)); [right; eexists; reflexivity | auto].
Qed.

Lemma healthy_started (now : Z) : healthy (started now).
Proof.
  unfold healthy, started.
  cbn [Engine.state Engine.score Engine.level Engine.entities
       Engine.initialiseLevel Engine.set_state Engine.set_lastTime
       Engine.constructor Entities.constructor Entities.level Entities.player
       Entities.enemies Player.constructor Player.level Player.pos].
  do 5 (split; [reflexivity|]); split.
  - exists 2%Z, 5%Z; level_dims; repeat split; lia.
  - intros enemy [].
Qed.

Lemma healthy_handle (ev : event) (this : Engine.t) :
  unit_frames [ev] -> healthy this ->
  healthy (handle ev this) /\
  (List.length (Entities.enemies (Engine.entities this))
   <= List.length (Entities.enemies (Engine.entities (handle ev this)))
   <= List.length (Entities.enemies (Engine.entities this)) + count_frames [ev])%nat.
Proof.
  intros Hu [Hrun [Hscore [Hl [Hel [Hpl [Htile Hlanes]]]]]].
  destruct ev as [now g | keyCode | x y | x y fresh now later g];
    cbn [handle count_frames].
  - destruct Hu as [Hg _].
    destruct (runLoopIteration_fields now g this)
      as [Hs [Hsc [Hlv [_ [_ He]]]]].
    rewrite Hrun in He; cbn [Engine.states_eqb] in He.
    rewrite Entities_update_cases in He; cbv zeta in He; cbn [snd] in He.
    unfold healthy; rewrite Hs, Hsc, Hlv, He.
    cbn [Entities.set_enemies Entities.level Entities.player Entities.enemies].
    split.
    + do 6 (split; [assumption|]).
      intros enemy Hin; apply in_map_iff in Hin.
      destruct Hin as [old [<- Hin]]; apply in_lane_update.
      apply in_app_or in Hin; destruct Hin as [Hin | Hin]; [auto|].
      destruct (JS.Rltb (g 0%nat) _); [|destruct Hin].
      destruct Hin as [<- | []]; rewrite Hel; apply spawned_in_lane, Hg.
    + rewrite length_map, length_app.
      destruct (JS.Rltb (g 0%nat) _); cbn [List.length]; lia.
  - unfold Engine.keyup.
    destruct (keyup_player (Engine.inputHandler this) keyCode (Engine.entities this))
      as [-> | [input ->]].
    + split; [|cbn [Engine.entities Engine.set_entities]; lia].
      unfold healthy;
        cbn [Engine.state Engine.score Engine.level Engine.entities
             Engine.set_entities]; do 6 (split; [assumption|]); assumption.
    + destruct (update_on_tile input _ Hpl Htile) as [Hpl' Htile'].
      split; [|cbn [Engine.entities Engine.set_entities Entities.set_player
                    Entities.enemies]; lia].
      unfold healthy;
        cbn [Engine.state Engine.score Engine.level Engine.entities
             Engine.set_entities Entities.set_player Entities.level
             Entities.player Entities.enemies]; do 6 (split; [assumption|]); assumption.
  - unfold Engine.handleMouseMove.
    destruct (Engine.over_button x y this);
      (split; [|cbn [Engine.entities Engine.set_buttonHighlight]; lia]);
      unfold healthy;
      cbn [Engine.state Engine.score Engine.level Engine.entities
           Engine.set_buttonHighlight]; do 6 (split; [assumption|]); assumption.
  - rewrite handleClick_idle by exact Hrun; cbn [fst].
    split; [|lia].
    unfold healthy; do 6 (split; [assumption|]); assumption.
Qed.

Lemma unit_frames_cons (ev : event) (evs : list event) :
  unit_frames (ev :: evs) -> unit_frames [ev] /\ unit_frames evs.
Proof.
  destruct ev; cbn [unit_frames]; tauto.
Qed.

Lemma count_frames_cons (ev : event) (evs : list event) :
  count_frames (ev :: evs) = (count_frames [ev] + count_frames evs)%nat.
Proof. destruct ev; reflexivity. Qed.

Lemma healthy_run (evs : list event) (this : Engine.t) :
  unit_frames evs -> healthy this ->
  healthy (run_events evs this) /\
  (List.length (Entities.enemies (Engine.entities this))
   <= List.length (Entities.enemies (Engine.entities (run_events evs this)))
   <= List.length (Entities.enemies (Engine.entities this)) + count_frames evs)%nat.
Proof.
  revert this; induction evs as [|ev evs IH]; intros this Hu Hh.
  - cbn [run_events fold_left count_frames]; split; [exact Hh | lia].
  - apply unit_frames_cons in Hu; destruct Hu as [Hev Hevs].
    destruct (healthy_handle ev this Hev Hh) as [Hh' Hlen].
    destruct (IH (handle ev this) Hevs Hh') as [Hh'' Hlen'].
    change (run_events (ev :: evs) this) with (run_events evs (handle ev this)).
    rewrite count_frames_cons.
    split; [exact Hh'' | lia].
Qed.

(** X21.  From the engine as started on the constructed level, through any
    sequence of loop iterations, key releases, mouse moves and clicks (with
    frame draws in [0, 1)): the state stays running and the score stays 0,
    the player is on a tile of the grid, every enemy is on one of the rows 1
    to 3 with velocity (100, 0) or (-100, 0), and there are at most as many
    enemies as iterations. *)
Theorem running_game_invariants (now : Z) (evs : list event) :
  unit_frames evs ->
  let after := run_events evs (started now) in
  Engine.state after = Engine.running /\
  Engine.score after = 0%Z /\
  on_tile Level.constructor (Player.pos (Entities.player (Engine.entities after))) /\
  (forall enemy, In enemy (Entities.enemies (Engine.entities after)) ->
                 in_lane Level.constructor enemy) /\
  (List.length (Entities.enemies (Engine.entities after)) <= count_frames evs)%nat.
Proof.
  intros Hu; cbv zeta.
  destruct (healthy_run evs (started now) Hu (healthy_started now))
    as [[Hs [Hsc [_ [_ [_ [Ht He]]]]]] Hlen].
  change (List.length (Entities.enemies (Engine.entities (started now))))
    with 0%nat in Hlen.
  do 4 (split; [assumption|]); lia.
Qed.

Lemma unit_draws_spawning : JS.unit_draws spawning.
Proof. intros [|n]; unfold spawning; lra. Qed.

Lemma unit_draws_halves : JS.unit_draws halves.
Proof. intros n; unfold halves; lra. Qed.

Lemma running_game_invariants_witness :
  unit_frames session /\
  Engine.state (run_events session (started 1000)) = Engine.running /\
  Engine.score (run_events session (started 1000)) = 0%Z /\
  (List.length (Entities.enemies (Engine.entities (run_events session (started 1000))))
   <= count_frames session)%nat.
Proof.
  assert (U : unit_frames session).
  { cbn [session unit_frames].
    repeat split; (apply unit_draws_spawning || apply unit_draws_halves). }
  destruct (running_game_invariants 1000 session U) as [Hs [Hsc [_ [_ Hn]]]].
  split; [exact U | split; [exact Hs | split; [exact Hsc | exact Hn]]].
Defined.

Lemma frame_dt_nonneg (now : Z) (this : Engine.t) :
  (Engine.lastTime this <= now)%Z -> 0 <= Engine.frame_dt now this.
Proof.
  intros H; unfold Engine.frame_dt, Engine.updateTimer; cbn [fst].
  assert (0 <= IZR (now - Engine.lastTime this)) by (apply IZR_le; lia).
  apply Rmin_glb; lra.
Qed.

Lemma handle_clock (ev : event) (this : Engine.t) :
  Engine.state this = Engine.running ->
  Engine.state (handle ev this) = Engine.running /\
  match ev with
  | Frame now _ =>
      Engine.lastTime (handle ev this) = now /\
      Engine.timeSinceReset (handle ev this) =
        Engine.timeSinceReset this + Engine.frame_dt now this
  | _ =>
      Engine.lastTime (handle ev this) = Engine.lastTime this /\
      Engine.timeSinceReset (handle ev this) = Engine.timeSinceReset this
  end.
Proof.
  intros Hrun.
  destruct ev as [now g | keyCode | x y | x y fresh now later g]; cbn [handle].
  - destruct (runLoopIteration_fields now g this) as [Hs [_ [_ [Hlt [Ht _]]]]].
    rewrite Hs; auto.
  - unfold Engine.keyup; cbn [Engine.set_entities Engine.state Engine.lastTime
                              Engine.timeSinceReset]; auto.
  - unfold Engine.handleMouseMove; destruct (Engine.over_button x y this);
      cbn [Engine.set_buttonHighlight Engine.state Engine.lastTime
           Engine.timeSinceReset]; auto.
  - rewrite handleClick_idle by exact Hrun; cbn [fst]; auto.
Qed.

(** X22.  Simulated time does not run backwards.  In a running game, over
    any sequence of events whose loop iterations read a clock that does not
    go backwards, [lastTime] and [timeSinceReset] never decrease; events
    other than loop iterations leave both as they are. *)
Theorem simulated_time_monotone (evs : list event) (this : Engine.t) :
  Engine.state this = Engine.running ->
  clock_monotone (Engine.lastTime this) evs ->
  let after := run_events evs this in
  (Engine.lastTime this <= Engine.lastTime after)%Z /\
  Engine.timeSinceReset this <= Engine.timeSinceReset after /\
  (count_frames evs = 0%nat ->
   Engine.lastTime after = Engine.lastTime this /\
   Engine.timeSinceReset after = Engine.timeSinceReset this).
Proof.
  cbv zeta; revert this; induction evs as [|ev evs IH]; intros this Hrun Hmono.
  - cbn [run_events fold_left count_frames]; repeat split; (lia || lra).
  - change (run_events (ev :: evs) this) with (run_events evs (handle ev this)).
    destruct (handle_clock ev this Hrun) as [Hrun' Hev].
    destruct ev as [now g | keyCode | x y | x y fresh now later g];
      cbn [clock_monotone] in Hmono; destruct Hev as [Hlt Ht].
    + destruct Hmono as [Hle Hmono].
      rewrite <- Hlt in Hmono.
      destruct (IH _ Hrun' Hmono) as [H1 [H2 _]].
      pose proof (frame_dt_nonneg now this Hle) as Hd.
      rewrite Ht, Hlt in *.
      split; [lia | split; [lra | discriminate]].
    + rewrite <- Hlt in Hmono.
      destruct (IH _ Hrun' Hmono) as [H1 [H2 H3]].
      rewrite Ht, Hlt in *; cbn [count_frames]; auto.
    + rewrite <- Hlt in Hmono.
      destruct (IH _ Hrun' Hmono) as [H1 [H2 H3]].
      rewrite Ht, Hlt in *; cbn [count_frames]; auto.
    + rewrite <- Hlt in Hmono.
      destruct (IH _ Hrun' Hmono) as [H1 [H2 H3]].
      rewrite Ht, Hlt in *; cbn [count_frames]; auto.
Qed.

Lemma simulated_time_monotone_witness :
  Engine.state (started 1000) = Engine.running /\
  clock_monotone (Engine.lastTime (started 1000)) session /\
  Engine.timeSinceReset (started 1000) <=
    Engine.timeSinceReset (run_events session (started 1000)).
Proof.
  assert (R : Engine.state (started 1000) = Engine.running) by reflexivity.
  assert (M : clock_monotone (Engine.lastTime (started 1000)) session)
    by (cbn [session clock_monotone started Engine.lastTime
             Engine.initialiseLevel Engine.set_lastTime]; lia).
  split; [exact R | split; [exact M |]].
  exact (proj1 (proj2 (simulated_time_monotone session (started 1000) R M))).
Defined.


